(** * shitpost / shitgen: the typed query compiler of [Model]

    A shallow embedding of [src/MockDatabase/MockDatabase.ts] (the schema
    registry [MockDatabase] and the query facade [Model] with its fragment
    compilers and the row reshaper [formatRow]) and of the older,
    string-building predicate compiler of [src/database/Model.ts].

    Conventions of the embedding.
    - A JavaScript value that is only read (a filter, include or order
      description) is a tree, [jsval].  An object is the list of its own
      enumerable properties in enumeration order, which is what
      [Object.entries] and [Object.keys] return.
    - Numbers are integers ([Z]); strings are ASCII ([string]); arrays and
      properties inherited from [Object.prototype] are not modelled.
    - The tagged template [sql] is an external collaborator.  A fragment
      is the sequence of its literal chunks and interpolations; a fragment
      interpolated into a template is inlined, an array of fragments is
      inlined in order, [sql(name)] is an identifier, any other
      interpolated value is a bound value.  Empty literal chunks are
      dropped.
    - A thrown exception is the [Err] branch of [result].
    - Rows are mutable objects: they live in a store, see [formatRow]. *)

From Stdlib Require Import ZArith Ascii String DecimalString.
From stdpp Require Import base option list strings gmap.

Local Open Scope string_scope.
Local Open Scope list_scope.

(** ** JavaScript values *)

#[local] Set Warnings "-register-all".

Inductive jsval : Type :=
| JUndefined
| JNull
| JBool (b : bool)
| JNum (z : Z)
| JStr (s : string)
| JObj (props : list (string * jsval)).

(** [String(v)] and the conversion of [${v}] inside a string template. *)
Definition js_String (v : jsval) : string :=
  match v with
  | JUndefined => "undefined"
  | JNull => "null"
  | JBool true => "true"
  | JBool false => "false"
  | JNum z => NilZero.string_of_int (Z.to_int z)
  | JStr s => s
  | JObj _ => "[object Object]"
  end.

(** ** Exceptions *)

Inductive error : Type :=
| AssertionError (message : string)
| TypeError
| RangeError
| ExecutorFailure (message : string).

Inductive result (A : Type) : Type :=
| Ok (a : A)
| Err (e : error).
Arguments Ok {A} a.
Arguments Err {A} e.

#[global] Instance result_ret : MRet result := fun A a => Ok a.
#[global] Instance result_bind : MBind result := fun A B k r =>
  match r with
  | Ok a => k a
  | Err e => Err e
  end.

(** [assert(cond, message)] of Node's [assert] module. *)
Definition assert (cond : bool) (message : string) : result unit :=
  if cond then Ok tt else Err (AssertionError message).

(** Run [f] on the elements from left to right; the first exception
    aborts, as in a [forEach] or [for ... of] whose body may throw. *)
Section MapM.
Context {A B : Type} (f : A -> result B).

Fixpoint mapM (l : list A) : result (list B) :=
  match l with
  | [] => Ok []
  | a :: l' => b ← f a; bs ← mapM l'; Ok (b :: bs)
  end.
End MapM.

(** ** SQL fragments *)

Inductive piece : Type :=
| Text (chunk : string)
| Ident (name : string)
| Value (v : jsval)
| Helper (data : list (string * jsval)) (columns : list string).

Definition SqlFragment : Type := list piece.

(** The double quote, for the assertion messages. *)
Definition dq : string := String "034"%char EmptyString.

(** ** Schema registry *)

Record MockColumnReference : Type := {
  ref_tableName : string;
  ref_columnName : string;
}.

(** Modelled from the spec: [MockColumn] ([./MockColumn] is not part of the
    sources): name, engine type, modifier flags and an optional reference. *)
Record MockColumn : Type := {
  col_name : string;
  col_type : string;
  modifierPrimaryKey : bool;
  modifierNotNull : bool;
  modifierDefault : bool;
  reference : option MockColumnReference;
}.

(** Modelled from the spec: [MockTable] ([./MockTable] is not part of the
    sources): a name and a mapping from column name to column. *)
Record MockTable : Type := {
  tbl_name : string;
  columns : gmap string MockColumn;
}.

(** Modelled from the spec: [MockTable.getColumn] returns the column of
    that name, or nothing; the caller asserts on the result. *)
Definition getColumn (table : MockTable) (columnName : string)
  : option MockColumn :=
  columns table !! columnName.

Record MockDatabase : Type := {
  tables : gmap string MockTable;
}.

Definition getTable (database : MockDatabase) (tableName : string)
  : result MockTable :=
  match tables database !! tableName with
  | Some table => Ok table
  | None =>
      Err (AssertionError
             ("table with name " +:+ dq +:+ tableName +:+ dq
              +:+ " does not exist"))
  end.

(** ** The query facade [Model] *)

Record Model : Type := {
  tableName : string;
  database : MockDatabase;
}.

(** [createIdentifier(column, parentTable)]: [sql(`${parentTable}.${column}`)].
    Where the source leaves [parentTable] out, the call sites below pass
    [tableName this], its default. *)
Definition createIdentifier (column parentTable : string) : SqlFragment :=
  [Ident (parentTable +:+ "." +:+ column)].

(** [joinByFragment(fragments, joinBy)]. *)
Definition joinByFragment (fragments : list SqlFragment) (joinBy : SqlFragment)
  : SqlFragment :=
  match fragments with
  | [] => []
  | _ =>
      concat
        (imap (fun i fragment =>
                 fragment
                 ++ (if decide (i ≠ length fragments - 1) then joinBy else []))
              fragments)
  end.

(** [clearFragmentArray(fragment)], interpolated into a template. *)
Definition clearFragmentArray (fragment : list SqlFragment) : SqlFragment :=
  match fragment with
  | [] => []
  | _ => concat fragment
  end.

(** [findReference(columnName, parentTable)]: the column together with its
    reference, which the assertion guarantees to be there. *)
Definition findReference (this : Model) (columnName parentTable : string)
  : result (MockColumn * MockColumnReference) :=
  table ← getTable (database this) parentTable;
  match getColumn table columnName with
  | None =>
      Err (AssertionError
             ("expected to find column " +:+ dq +:+ columnName +:+ dq
              +:+ " in table " +:+ dq +:+ parentTable +:+ dq))
  | Some column =>
      match reference column with
      | None =>
          Err (AssertionError
                 ("expected column " +:+ dq +:+ columnName +:+ dq
                  +:+ " in table " +:+ dq +:+ parentTable +:+ dq
                  +:+ " to have a reference"))
      | Some r => Ok (column, r)
      end
  end.

(** *** Predicate compiler *)

(** The [switch (operator)] of [generateWhereObject]; [None] when no case
    matches and control leaves the [switch]. *)
Definition switchOperator (selector : SqlFragment) (operator : string)
    (targetValue : jsval) : option SqlFragment :=
  if String.eqb operator "eq" then
    Some (match targetValue with
          | JNull => selector ++ [Text " IS NULL"]
          | _ => selector ++ [Text " = '"; Value targetValue; Text "'"]
          end)
  else if String.eqb operator "neq" then
    Some (match targetValue with
          | JNull => selector ++ [Text " IS NOT NULL"]
          | _ => selector ++ [Text " != '"; Value targetValue; Text "'"]
          end)
  else if String.eqb operator "contains" then
    Some (selector ++ [Text " LIKE '%"; Value targetValue; Text "%'"])
  else if String.eqb operator "startsWith" then
    Some (selector ++ [Text " LIKE '"; Value targetValue; Text "%'"])
  else if String.eqb operator "endsWith" then
    Some (selector ++ [Text " LIKE '%"; Value targetValue; Text "'"])
  else if String.eqb operator "gt" then
    Some (selector ++ [Text " > "; Value targetValue])
  else if String.eqb operator "lt" then
    Some (selector ++ [Text " < "; Value targetValue])
  else if String.eqb operator "gte" then
    Some (selector ++ [Text " >= "; Value targetValue])
  else if String.eqb operator "lte" then
    Some (selector ++ [Text " >= "; Value targetValue])
  else None.

(** The template that closes [generateWhere]. *)
Definition whereTemplate (includeWhere : bool)
    (whereFragments : list SqlFragment) : SqlFragment :=
  (if includeWhere && negb (Nat.eqb (length whereFragments) 0)
   then [Text "WHERE"] else [])
  ++ [Text " "] ++ joinByFragment whereFragments [Text " AND "].

(** [generateWhereObject(key, operators, parentTable)].  The recursive call
    of [generateWhere] with [includeWhere: false] is the inner [fix]; the
    lemma [generateWhereObject_nested] states it through [generateWhere].
    Destructuring the first entry of an empty object throws [TypeError]. *)
Fixpoint generateWhereObject (this : Model) (key : string) (operators : jsval)
    (parentTable : string) {struct operators} : result SqlFragment :=
  let selector := createIdentifier key parentTable in
  match operators with
  | JNull => Ok (selector ++ [Text " IS NULL"])
  | JObj props =>
      match findReference this key parentTable with
      | Ok (column, r) =>
          whereFragments ←
            (fix forEach (whereEntries : list (string * jsval)) :=
               match whereEntries with
               | [] => Ok []
               | (k, v) :: rest =>
                   fragment ← generateWhereObject this k v (ref_tableName r);
                   fragments ← forEach rest;
                   Ok (fragment :: fragments)
               end) props;
          Ok (whereTemplate false whereFragments)
      | Err _ =>
          match props with
          | [] => Err TypeError
          | (operator, targetValue) :: _ =>
              match switchOperator selector operator targetValue with
              | Some fragment => Ok fragment
              | None =>
                  Ok (selector
                      ++ [Text " = "; Value (JStr (js_String operators))])
              end
          end
      end
  | _ => Ok (selector ++ [Text " = "; Value (JStr (js_String operators))])
  end.

(** [generateWhere({ where, parentTable, includeWhere })]; [where] is given
    by its entries. *)
Definition generateWhere (this : Model) (where_ : list (string * jsval))
    (parentTable : string) (includeWhere : bool) : result SqlFragment :=
  whereFragments ←
    mapM (fun '(key, operators) =>
            generateWhereObject this key operators parentTable) where_;
  Ok (whereTemplate includeWhere whereFragments).

(** *** Select compiler *)

(** [generateSelect({ select, parentTable, referenceColumnName,
    includeReturning, includeComma })].  An absent or empty
    [referenceColumnName] is falsy: no alias. *)
Definition generateSelect (select : list string) (parentTable : string)
    (referenceColumnName : option string)
    (includeReturning includeComma : bool) : SqlFragment :=
  let columns :=
    match select with
    | [] => [Ident parentTable; Text ".*"]
    | _ =>
        joinByFragment
          (map (fun column =>
                  createIdentifier column parentTable ++ [Text " "]
                  ++ match referenceColumnName with
                     | Some (String c r) =>
                         [Text "AS ";
                          Ident ("__" +:+ String c r +:+ "__" +:+ column)]
                     | _ => []
                     end)
               select)
          [Text ", "]
    end in
  (if includeReturning then [Text "RETURNING"] else [])
  ++ [Text " "] ++ columns ++ (if includeComma then [Text ","] else []).

(** *** Relation resolver *)

(** The decimal numeral of an index, as a property key. *)
Definition index_key (i : nat) : string :=
  NilZero.string_of_uint (Nat.to_uint i).

Fixpoint string_chars (s : string) : list string :=
  match s with
  | EmptyString => []
  | String c s' => String c EmptyString :: string_chars s'
  end.

(** [Object.entries(v)]: the own enumerable properties; a string has its
    characters under their indices, [null] and [undefined] throw. *)
Definition object_entries (v : jsval) : result (list (string * jsval)) :=
  match v with
  | JUndefined | JNull => Err TypeError
  | JBool _ | JNum _ => Ok []
  | JStr s => Ok (imap (fun i c => (index_key i, JStr c)) (string_chars s))
  | JObj props => Ok props
  end.

(** [Object.keys(v)]. *)
Definition object_keys (v : jsval) : result (list string) :=
  entries ← object_entries v; Ok (map fst entries).

Record IncludeFragments : Type := {
  joinFragment : list SqlFragment;
  selectFragment : list SqlFragment;
}.

(** [generateInclude(include)]; [include] is given by its entries. *)
Fixpoint generateInclude (this : Model) (include : list (string * jsval))
  : result IncludeFragments :=
  match include with
  | [] => Ok {| joinFragment := []; selectFragment := [] |}
  | (columnName, select) :: rest =>
      '(column, r) ← findReference this columnName (tableName this);
      let join :=
        [Text "JOIN "; Ident (ref_tableName r); Text " ON "]
        ++ createIdentifier (col_name column) (tableName this)
        ++ [Text " = "]
        ++ createIdentifier (ref_columnName r) (ref_tableName r) in
      selects ←
        match select with
        | JBool _ => Ok []
        | _ =>
            keys ← object_keys select;
            Ok [generateSelect keys (ref_tableName r) (Some columnName)
                  false false]
        end;
      fragments ← generateInclude this rest;
      Ok {| joinFragment := join :: joinFragment fragments;
            selectFragment := selects ++ selectFragment fragments |}
  end.

(** *** Order compiler *)

Record OrderFragments : Type := {
  ascFragment : list SqlFragment;
  descFragment : list SqlFragment;
}.

(** What the [if (order === "DESC") ... else if (order === "ASC") ...] of
    the loop pushes for one entry. *)
Definition pushOrder (order : jsval) (identifier : SqlFragment)
  : OrderFragments :=
  match order with
  | JStr o =>
      if String.eqb o "DESC" then
        {| ascFragment := []; descFragment := [identifier] |}
      else if String.eqb o "ASC" then
        {| ascFragment := [identifier]; descFragment := [] |}
      else {| ascFragment := []; descFragment := [] |}
  | _ => {| ascFragment := []; descFragment := [] |}
  end.

(** The [for ... of] loop of [generateOrderByObject]; [recurse] is the
    function itself, one frame down.  The look-up of the relationship is
    [findReference(columnName)]: it looks in the model's own table, also
    below the root. *)
Section OrderByLoop.
Context (this : Model) (recurse : jsval -> string -> result OrderFragments)
        (parentTable : string).

Fixpoint orderByLoop (entries : list (string * jsval))
  : result OrderFragments :=
  match entries with
  | [] => Ok {| ascFragment := []; descFragment := [] |}
  | (columnName, order) :: rest =>
      let own := pushOrder order (createIdentifier columnName parentTable) in
      nested ←
        match findReference this columnName (tableName this) with
        | Ok (column, r) => recurse order (ref_tableName r)
        | Err _ => Ok {| ascFragment := []; descFragment := [] |}
        end;
      later ← orderByLoop rest;
      Ok {| ascFragment :=
              ascFragment own ++ ascFragment nested ++ ascFragment later;
            descFragment :=
              descFragment own ++ descFragment nested
              ++ descFragment later |}
  end.
End OrderByLoop.

(** [generateOrderByObject({ orderBy, parentTable })].  The function calls
    itself on whatever value sits under a relationship key, so the
    recursion is bounded by the call stack only: [stack] is the number of
    frames left, and running out of them is the engine's [RangeError].
    An [undefined] description takes the default [{}]. *)
Fixpoint generateOrderByObject (this : Model) (stack : nat) (orderBy : jsval)
    (parentTable : string) {struct stack} : result OrderFragments :=
  match stack with
  | O => Err RangeError
  | S stack' =>
      entries ←
        match orderBy with
        | JUndefined => Ok []
        | _ => object_entries orderBy
        end;
      orderByLoop this (generateOrderByObject this stack') parentTable entries
  end.

(** The line feed of the multi-line templates. *)
Definition nl : string := String "010"%char EmptyString.

(** [generateOrderBy({ orderBy })]. *)
Definition generateOrderBy (this : Model) (stack : nat) (orderBy : jsval)
  : result SqlFragment :=
  fragments ← generateOrderByObject this stack orderBy (tableName this);
  let hasAsc := negb (Nat.eqb (length (ascFragment fragments)) 0) in
  let hasDesc := negb (Nat.eqb (length (descFragment fragments)) 0) in
  if negb hasAsc && negb hasDesc then Ok []
  else
    Ok ([Text (nl +:+ "      ORDER BY " +:+ nl +:+ "        ")]
        ++ (if hasAsc
            then joinByFragment (ascFragment fragments) [Text ", "]
                 ++ [Text " ASC"]
                 ++ (if hasDesc then [Text ", "] else [])
            else [])
        ++ [Text (" " +:+ nl +:+ "        ")]
        ++ (if hasDesc
            then joinByFragment (descFragment fragments) [Text ", "]
                 ++ [Text " DESC"]
            else [])
        ++ [Text (nl +:+ "    ")]).

(** ** Rows and the store

    Rows are copied, mutated and handed on by reference, so they live in a
    store: an object is the list of its own enumerable properties in
    enumeration order, and a location is an index into the store.  Objects
    are never freed. *)

Abbreviation loc := nat.

Inductive val : Type :=
| VUndefined
| VNull
| VBool (b : bool)
| VNum (z : Z)
| VStr (s : string)
| VRef (l : loc).

Abbreviation obj := (list (string * val)).
Abbreviation store := (list (list (string * val))).

(** The properties of the object at [l]. *)
Definition deref (σ : store) (l : loc) : obj := default [] (σ !! l).

(** [new] object with the given properties. *)
Definition alloc (σ : store) (o : obj) : store * loc := (σ ++ [o], length σ).

(** [o[key]]. *)
Fixpoint obj_get (o : obj) (key : string) : val :=
  match o with
  | [] => VUndefined
  | (k, v) :: o' => if String.eqb k key then v else obj_get o' key
  end.

Definition obj_has (o : obj) (key : string) : bool :=
  existsb (fun kv => String.eqb (fst kv) key) o.

(** [delete o[key]]. *)
Definition obj_delete (o : obj) (key : string) : obj :=
  filter (fun kv => String.eqb (fst kv) key = false) o.

(** A property key is an array index when it is the canonical numeral of
    an integer below [2^32 - 1]. *)
Definition array_index (key : string) : option N :=
  match NilZero.uint_of_string key with
  | Some u =>
      let n := N.of_uint u in
      if String.eqb (NilZero.string_of_uint (N.to_uint n)) key
         && (n <? 4294967295)%N
      then Some n else None
  | None => None
  end.

(** Where a new array-index property goes: before the first property that
    is not an array index or is a larger one. *)
Fixpoint obj_insert_index (n : N) (key : string) (v : val) (o : obj) : obj :=
  match o with
  | [] => [(key, v)]
  | (k, w) :: o' =>
      match array_index k with
      | Some m =>
          if (m <? n)%N then (k, w) :: obj_insert_index n key v o'
          else (key, v) :: o
      | None => (key, v) :: o
      end
  end.

Fixpoint obj_replace (key : string) (v : val) (o : obj) : obj :=
  match o with
  | [] => []
  | (k, w) :: o' =>
      if String.eqb k key then (k, v) :: o' else (k, w) :: obj_replace key v o'
  end.

(** [o[key] = v]: an existing property keeps its place; a new one is
    enumerated after the others, array indices first and in ascending
    order. *)
Definition obj_set (key : string) (v : val) (o : obj) : obj :=
  if obj_has o key then obj_replace key v o
  else
    match array_index key with
    | Some n => obj_insert_index n key v o
    | None => o ++ [(key, v)]
    end.

(** [store[l].key = v] and [delete store[l].key]. *)
Definition store_set (σ : store) (l : loc) (key : string) (v : val) : store :=
  <[l := obj_set key v (deref σ l)]> σ.

Definition store_delete (σ : store) (l : loc) (key : string) : store :=
  <[l := obj_delete (deref σ l) key]> σ.

(** *** Strings of the reshaper *)

(** [s.split("__")]: the separator is looked for from left to right; a
    character that does not start one goes in front of the part that
    follows. *)
Fixpoint split_dunder (s : string) : list string :=
  match s with
  | EmptyString => [EmptyString]
  | String c s' =>
      let keep :=
        match split_dunder s' with
        | part :: parts => String c part :: parts
        | [] => [String c EmptyString]
        end in
      match s' with
      | String c' s'' =>
          if Ascii.eqb c "_" && Ascii.eqb c' "_"
          then EmptyString :: split_dunder s''
          else keep
      | EmptyString => keep
      end
  end.

(** White space of [trim], within ASCII. *)
Definition is_space (c : ascii) : bool :=
  let n := nat_of_ascii c in
  ((9 <=? n)%nat && (n <=? 13)%nat) || (n =? 32)%nat.

Fixpoint trim_start (s : string) : string :=
  match s with
  | EmptyString => EmptyString
  | String c s' => if is_space c then trim_start s' else s
  end.

Fixpoint trim_end (s : string) : string :=
  match s with
  | EmptyString => EmptyString
  | String c s' =>
      match trim_end s' with
      | EmptyString => if is_space c then EmptyString else String c EmptyString
      | t => String c t
      end
  end.

Definition trim (s : string) : string := trim_end (trim_start s).

(** [key.startsWith("__")]. *)
Definition alias_marked (key : string) : bool := String.prefix "__" key.

(** The parts of an alias:
    [key.split("__").map(trim).filter(nonempty)]. *)
Definition alias_parts (key : string) : list string :=
  filter (fun part => String.length part ≠ 0) (map trim (split_dunder key)).

(** An element taken out of an array by destructuring and used as a
    property key: a missing one is [undefined], whose key is its name. *)
Definition property_key (part : option string) : string :=
  default "undefined" part.

(** *** Row reshaper *)

(** One turn of the loop of [formatRow] on the copy at [row]. *)
Definition formatRow_step (row : loc) (σ : store) (key : string) : store :=
  if alias_marked key then
    let cachedValue := obj_get (deref σ row) key in
    let σ1 := store_delete σ row key in
    let parts := alias_parts key in
    let referenceColumnName := property_key (parts !! 0%nat) in
    let subKey := property_key (parts !! 1%nat) in
    let spread :=
      match obj_get (deref σ1 row) referenceColumnName with
      | VRef l => deref σ1 l
      | _ => []
      end in
    let '(σ2, nested) := alloc σ1 (obj_set subKey cachedValue spread) in
    store_set σ2 row referenceColumnName (VRef nested)
  else σ.

(** [formatRow(rowSource)]: the store after the call and the location of
    the returned object. *)
Definition formatRow (σ : store) (rowSource : loc) : store * loc :=
  let '(σ0, row) := alloc σ (deref σ rowSource) in
  (foldl (formatRow_step row) σ0 (map fst (deref σ0 row)), row).

(** [rows.map((row) => this.formatRow(row))]. *)
Fixpoint formatRows (σ : store) (rows : list loc) : store * list loc :=
  match rows with
  | [] => (σ, [])
  | row :: rest =>
      let '(σ1, formatted) := formatRow σ row in
      let '(σ2, others) := formatRows σ1 rest in
      (σ2, formatted :: others)
  end.

(** *** Query facade *)

(** Submitting a statement ([await sql`...`]) is the business of the
    external executor: it allocates the rows it returns in the store, or
    fails. *)
Definition Executor : Type := SqlFragment -> store -> result (list loc * store).

Record FindManyArgs : Type := {
  select : option (list string);
  where_ : option (list (string * jsval));
  include : option (list (string * jsval));
  limit : option Z;
  orderBy : jsval;
}.

Record FindArgs : Type := {
  f_select : option (list string);
  f_where : option (list (string * jsval));
  f_include : option (list (string * jsval));
}.

Record CreateArgs : Type := {
  c_select : option (list string);
  c_data : list (string * jsval);
}.

Record UpdateArgs : Type := {
  u_select : option (list string);
  u_data : list (string * jsval);
  u_where : list (string * jsval);
}.

(** The statement of [findMany]. *)
Definition findManyStatement (this : Model) (stack : nat) (args : FindManyArgs)
  : result SqlFragment :=
  let select := default [] (select args) in
  let where_ := default [] (where_ args) in
  let include := default [] (include args) in
  let orderBy :=
    match orderBy args with JUndefined => JObj [] | o => o end in
  fragments ← generateInclude this include;
  let includeSelectFragment := selectFragment fragments in
  whereFragment ← generateWhere this where_ (tableName this) true;
  orderFragment ← generateOrderBy this stack orderBy;
  Ok ([Text (nl +:+ "      SELECT ")]
      ++ generateSelect select (tableName this) None false
           (negb (Nat.eqb (length includeSelectFragment) 0))
      ++ [Text " "] ++ clearFragmentArray includeSelectFragment
      ++ [Text " FROM "; Ident (tableName this); Text (nl +:+ "      ")]
      ++ clearFragmentArray (joinFragment fragments)
      ++ [Text (nl +:+ "      ")] ++ whereFragment
      ++ [Text (nl +:+ "      ")]
      ++ match limit args with
         | Some n => if Z.eqb n 0 then [] else [Text "LIMIT "; Value (JNum n)]
         | None => []
         end
      ++ [Text (nl +:+ "      ")] ++ orderFragment
      ++ [Text (nl +:+ "    ")]).

(** [findMany(args)]. *)
Definition findMany (sql : Executor) (this : Model) (stack : nat)
    (args : FindManyArgs) (σ : store) : result (list loc * store) :=
  statement ← findManyStatement this stack args;
  '(rows, σ1) ← sql statement σ;
  let '(σ2, formatted) := formatRows σ1 rows in
  Ok (formatted, σ2).

(** [rows[i]] of an array of row objects. *)
Definition element (rows : list loc) (i : nat) : val :=
  match rows !! i with
  | Some row => VRef row
  | None => VUndefined
  end.

(** [{ ...args, limit: 1 }]. *)
Definition limitOne (args : FindArgs) : FindManyArgs :=
  {| select := f_select args; where_ := f_where args;
     include := f_include args; limit := Some 1%Z; orderBy := JUndefined |}.

(** [find(args)]: [findMany({ ...args, limit: 1 })], then the sole element
    or [null]. *)
Definition find (sql : Executor) (this : Model) (stack : nat)
    (args : FindArgs) (σ : store) : result (val * store) :=
  '(data, σ1) ← findMany sql this stack (limitOne args) σ;
  Ok (if Nat.eqb (length data) 1 then element data 0 else VNull, σ1).

(** The statement of [create]. *)
Definition createStatement (this : Model) (args : CreateArgs) : SqlFragment :=
  let select := default [] (c_select args) in
  [Text (nl +:+ "      INSERT INTO "); Ident (tableName this);
   Text (" " +:+ nl +:+ "      ");
   Helper (c_data args) (map fst (c_data args));
   Text (nl +:+ "      ")]
  ++ generateSelect select (tableName this) None true false
  ++ [Text (nl +:+ "    ")].

(** [create(args)]. *)
Definition create (sql : Executor) (this : Model) (args : CreateArgs)
    (σ : store) : result (val * store) :=
  '(rows, σ1) ← sql (createStatement this args) σ;
  _ ← assert (Nat.eqb (length rows) 1) "expected to create a single row";
  Ok (element rows 0, σ1).

(** The statement of [update]. *)
Definition updateStatement (this : Model) (args : UpdateArgs)
  : result SqlFragment :=
  let select := default [] (u_select args) in
  whereFragment ← generateWhere this (u_where args) (tableName this) true;
  Ok ([Text (nl +:+ "      UPDATE "); Ident (tableName this); Text " SET ";
       Helper (u_data args) (map fst (u_data args));
       Text (nl +:+ "      ")]
      ++ whereFragment ++ [Text (nl +:+ "      ")]
      ++ generateSelect select (tableName this) None true false
      ++ [Text (nl +:+ "    ")]).

(** [update(args)]. *)
Definition update (sql : Executor) (this : Model) (args : UpdateArgs)
    (σ : store) : result (val * store) :=
  statement ← updateStatement this args;
  '(rows, σ1) ← sql statement σ;
  _ ← assert (Nat.eqb (length rows) 1) "expected to update a single row";
  Ok (element rows 0, σ1).

(** [delete(args)]: the raw result of the execution. *)
Definition delete (sql : Executor) (this : Model)
    (where_ : list (string * jsval)) (σ : store) : result (list loc * store) :=
  whereFragment ← generateWhere this where_ (tableName this) true;
  sql ([Text (nl +:+ "      DELETE FROM "); Ident (tableName this);
        Text (" " +:+ nl +:+ "      ")]
       ++ whereFragment ++ [Text (nl +:+ "    ")]) σ.

(** ** The string-building predicate compiler of [src/database/Model.ts] *)

Module Legacy.

Definition createIdentifier (column parentTable : string) : string :=
  parentTable +:+ "." +:+ column.

(** The [switch (operator)] of the callback. *)
Definition switchOperator (selector operator : string) (targetValue : jsval)
  : option string :=
  let target := js_String targetValue in
  if String.eqb operator "eq" then
    Some (match targetValue with
          | JNull => selector +:+ " IS NULL"
          | _ => selector +:+ " = '" +:+ target +:+ "'"
          end)
  else if String.eqb operator "neq" then
    Some (match targetValue with
          | JNull => selector +:+ " IS NOT NULL"
          | _ => selector +:+ " != '" +:+ target +:+ "'"
          end)
  else if String.eqb operator "contains" then
    Some (selector +:+ " LIKE '%" +:+ target +:+ "%'")
  else if String.eqb operator "startsWith" then
    Some (selector +:+ " LIKE '" +:+ target +:+ "%'")
  else if String.eqb operator "endsWith" then
    Some (selector +:+ " LIKE '%" +:+ target +:+ "'")
  else if String.eqb operator "gt" then
    Some (selector +:+ " > " +:+ target)
  else if String.eqb operator "lt" then
    Some (selector +:+ " < " +:+ target)
  else if String.eqb operator "gte" then
    Some (selector +:+ " >= " +:+ target)
  else if String.eqb operator "lte" then
    Some (selector +:+ " >= " +:+ target)
  else None.

(** The callback of [Object.entries(where).map]: [None] is the
    [undefined] of the bare [return]. *)
Definition whereEntry (parentTable : string) (entry : string * jsval)
  : result (option string) :=
  let '(key, operators) := entry in
  let selector := createIdentifier key parentTable in
  match operators with
  | JUndefined => Ok None
  | JNull => Ok (Some (selector +:+ " IS NULL"))
  | JObj [] => Err TypeError
  | JObj ((operator, targetValue) :: _) =>
      match switchOperator selector operator targetValue with
      | Some clause => Ok (Some clause)
      | None =>
          Ok (Some (selector +:+ " = '" +:+ js_String operators +:+ "'"))
      end
  | _ => Ok (Some (selector +:+ " = '" +:+ js_String operators +:+ "'"))
  end.

(** [Array.prototype.join]: an [undefined] element counts as the empty
    string. *)
Fixpoint join (sep : string) (l : list (option string)) : string :=
  match l with
  | [] => ""
  | [x] => default "" x
  | x :: l' => default "" x +:+ sep +:+ join sep l'
  end.

(** [generateWhere(where, parentTable)]. *)
Definition generateWhere (where_ : list (string * jsval))
    (parentTable : string) : result string :=
  clauses ← mapM (whereEntry parentTable) where_;
  Ok ("WHERE " +:+ join " AND " clauses).

End Legacy.

(** ** Keyword tokens of a fragment *)

(** How often [kw] occurs in [s]. *)
Fixpoint occurrences (kw s : string) : nat :=
  (if String.prefix kw s then 1 else 0)
  + match s with
    | EmptyString => 0
    | String _ s' => occurrences kw s'
    end.

(** How often the keyword occurs in the literal text of a fragment;
    identifiers and bound values are not SQL text. *)
Definition keywordCount (kw : string) (fragment : SqlFragment) : nat :=
  sum_list (map (fun p => match p with
                          | Text chunk => occurrences kw chunk
                          | _ => 0
                          end) fragment).

(** ** Schemas used in the examples *)

Definition plainColumn (name type : string) : MockColumn :=
  {| col_name := name; col_type := type; modifierPrimaryKey := false;
     modifierNotNull := false; modifierDefault := false; reference := None |}.

Definition referenceColumn (name type table column : string) : MockColumn :=
  {| col_name := name; col_type := type; modifierPrimaryKey := false;
     modifierNotNull := true; modifierDefault := false;
     reference := Some {| ref_tableName := table; ref_columnName := column |} |}.

Definition tableOf (name : string) (cols : list MockColumn) : MockTable :=
  {| tbl_name := name;
     columns := list_to_map (map (fun c => (col_name c, c)) cols) |}.

Definition databaseOf (tbls : list MockTable) : MockDatabase :=
  {| tables := list_to_map (map (fun t => (tbl_name t, t)) tbls) |}.

(** The users of [design.txt] with the avatars of the generated types. *)
Definition exampleDatabase : MockDatabase :=
  databaseOf
    [tableOf "user_"
       [plainColumn "id" "serial"; plainColumn "username" "text";
        plainColumn "password" "text"; plainColumn "name" "text";
        plainColumn "age" "integer";
        referenceColumn "avatar_id" "integer" "avatar" "id"];
     tableOf "avatar"
       [plainColumn "id" "serial"; plainColumn "src" "text";
        plainColumn "alt" "text"]].

Definition User : Model :=
  {| tableName := "user_"; database := exampleDatabase |}.

(** A table [t] whose column [r] references table [s]. *)
Definition relationDatabase : MockDatabase :=
  databaseOf
    [tableOf "t" [plainColumn "a" "integer";
                  referenceColumn "r" "integer" "s" "id"];
     tableOf "s" [plainColumn "id" "serial"; plainColumn "c" "integer"]].

Definition T : Model := {| tableName := "t"; database := relationDatabase |}.

(** ** Notions used to state the properties *)

(** [fragments] with [sep] between neighbours, as the spec words the
    joined lists. *)
Fixpoint separated (sep : SqlFragment) (fragments : list SqlFragment)
  : SqlFragment :=
  match fragments with
  | [] => []
  | [fragment] => fragment
  | fragment :: rest => fragment ++ sep ++ separated sep rest
  end.

(** The words of a literal chunk: maximal runs without white space;
    [cur] is the run read so far, reversed. *)
Fixpoint words_go (s : string) (cur : list ascii) : list string :=
  match s with
  | EmptyString =>
      match cur with
      | [] => []
      | _ => [string_of_list_ascii (rev cur)]
      end
  | String c s' =>
      if is_space c then
        match cur with
        | [] => words_go s' []
        | _ => string_of_list_ascii (rev cur) :: words_go s' []
        end
      else words_go s' (c :: cur)
  end.

(** A fragment up to the layout of its templates: text is cut into words,
    interpolations are kept. *)
Definition words (fragment : SqlFragment) : list piece :=
  concat (map (fun p => match p with
                        | Text chunk => map Text (words_go chunk [])
                        | _ => [p]
                        end) fragment).

(** The ORDER BY clause in the spec's words, for the two groups. *)
Definition orderByWords (asc desc : list SqlFragment) : list piece :=
  match asc, desc with
  | [], [] => []
  | _ :: _, [] =>
      [Text "ORDER"; Text "BY"] ++ words (separated [Text ", "] asc)
      ++ [Text "ASC"]
  | _ :: _, _ :: _ =>
      [Text "ORDER"; Text "BY"] ++ words (separated [Text ", "] asc)
      ++ [Text "ASC"] ++ [Text ","] ++ words (separated [Text ", "] desc)
      ++ [Text "DESC"]
  | [], _ :: _ =>
      [Text "ORDER"; Text "BY"] ++ words (separated [Text ", "] desc)
      ++ [Text "DESC"]
  end.

(** Whether a value of an order description is the direction [o]. *)
Definition order_is (o : string) (v : jsval) : bool :=
  match v with
  | JStr s => String.eqb s o
  | _ => false
  end.

(** The identifiers of the keys of [entries] sorted in direction [o]. *)
Definition sortedBy (o : string) (parentTable : string)
    (entries : list (string * jsval)) : list SqlFragment :=
  map (fun kv => createIdentifier (fst kv) parentTable)
    (filter (fun kv => order_is o (snd kv) = true) entries).

(** Whether an empty object occurs in a description. *)
Fixpoint has_empty_object (v : jsval) : bool :=
  match v with
  | JObj [] => true
  | JObj props => existsb (fun kv => has_empty_object (snd kv)) props
  | _ => false
  end.

(** The value [v] read out of the store, objects followed [depth] deep. *)
Fixpoint snapshot (depth : nat) (σ : store) (v : val) : jsval :=
  match v with
  | VUndefined => JUndefined
  | VNull => JNull
  | VBool b => JBool b
  | VNum z => JNum z
  | VStr s => JStr s
  | VRef l =>
      match depth with
      | O => JUndefined
      | S depth' =>
          JObj (map (fun kv => (fst kv, snapshot depth' σ (snd kv)))
                  (deref σ l))
      end
  end.

(** No two underscores in a row. *)
Fixpoint dunder_free (s : string) : bool :=
  match s with
  | EmptyString => true
  | String a s' =>
      match s' with
      | EmptyString => true
      | String b _ =>
          negb (Ascii.eqb a "_" && Ascii.eqb b "_") && dunder_free s'
      end
  end.

(** The fragment holds the pieces [part], in a row. *)
Definition holds (part fragment : SqlFragment) : Prop :=
  exists before after, fragment = before ++ part ++ after.

(** A create or update that did not get exactly one row. *)
Definition UnexpectedRowCount (e : error) : Prop :=
  e = AssertionError "expected to create a single row"
  ∨ e = AssertionError "expected to update a single row".

(** A flat row with an aliased column. *)
Definition exampleRow : list (string * val) :=
  [("id", VNum 1); ("__avatar_id__src", VStr "a.png")].

(** Executors for the examples: each returns [n] fresh copies of
    [exampleRow]. *)
Definition rowsExecutor (n : nat) : Executor :=
  fun _ σ =>
    Ok (seq (length σ) n,
        σ ++ replicate n exampleRow).

Definition exampleFind : FindArgs :=
  {| f_select := None; f_where := Some [("username", JStr "ann")];
     f_include := Some [("avatar_id", JObj [("src", JBool true)])] |}.

Definition exampleCreate : CreateArgs :=
  {| c_select := None;
     c_data := [("username", JStr "ann"); ("password", JStr "secret")] |}.

Definition exampleUpdate : UpdateArgs :=
  {| u_select := Some ["id"]; u_data := [("name", JStr "Ann")];
     u_where := [("id", JNum 1)] |}.

Definition exampleOrder : jsval :=
  JObj [("name", JStr "ASC"); ("age", JStr "DESC");
        ("avatar_id", JObj [("src", JStr "ASC")])].

(** The statements those arguments compile to. *)
Definition exampleFindStatement : SqlFragment :=
  Eval vm_compute in
    match findManyStatement User 1 (limitOne exampleFind) with
    | Ok statement => statement
    | Err _ => []
    end.

Definition exampleUpdateStatement : SqlFragment :=
  Eval vm_compute in
    match updateStatement User exampleUpdate with
    | Ok statement => statement
    | Err _ => []
    end.

(** A store with a reshaped row and its nested object. *)
Definition reshapedStore : list (list (string * val)) :=
  [[("a", VNum 1); ("r", VRef 1)]; [("c", VNum 2)]].

(** ** The registry as it is filled: [addTable] *)

(** [addTable(table)]: the registry with the table under its name, or the
    message of the [Error] thrown when the name is taken. *)
Definition addTable (database : MockDatabase) (table : MockTable)
  : string + MockDatabase :=
  match tables database !! tbl_name table with
  | Some _ => inl "Table already exists."
  | None =>
      inr {| tables := <[tbl_name table := table]> (tables database) |}
  end.

(** ** Further notions *)

(** The names of the identifiers of a fragment, in order. *)
Definition identifiers (fragment : SqlFragment) : list string :=
  omap (fun p => match p with
                 | Ident name => Some name
                 | _ => None
                 end) fragment.

(** The alias that [generateSelect] gives a column of an included
    relation. *)
Definition aliasOf (referenceColumnName column : string) : string :=
  "__" +:+ referenceColumnName +:+ "__" +:+ column.



(** The nine operators of the [switch]. *)
Definition known_operator (operator : string) : bool :=
  existsb (String.eqb operator)
    ["eq"; "neq"; "contains"; "startsWith"; "endsWith"; "gt"; "lt"; "gte";
     "lte"].

(** Whether an include value is a boolean. *)
Definition is_boolean (v : jsval) : bool :=
  match v with
  | JBool _ => true
  | _ => false
  end.

(** A [findMany] without arguments. *)
Definition noArgs : FindManyArgs :=
  {| select := None; where_ := None; include := None; limit := None;
     orderBy := JUndefined |}.

(** The posts of [design.txt]. *)
Definition postTable : MockTable :=
  tableOf "post_"
    [plainColumn "id" "serial"; plainColumn "title" "text";
     plainColumn "content" "text";
     referenceColumn "author_id" "integer" "user_" "id"].

(** An update without a filter. *)
Definition updateAll : UpdateArgs :=
  {| u_select := None; u_data := [("name", JStr "Ann")]; u_where := [] |}.


(** * Properties *)

(** ** Induction over descriptions *)

Section JsvalInd.
Context (P : jsval -> Prop).
Context (HUndefined : P JUndefined) (HNull : P JNull)
        (HBool : forall b, P (JBool b)) (HNum : forall z, P (JNum z))
        (HStr : forall s, P (JStr s))
        (HObj : forall props,
            Forall (fun kv => P (snd kv)) props -> P (JObj props)).

Fixpoint jsval_nested_ind (v : jsval) : P v :=
  match v with
  | JUndefined => HUndefined
  | JNull => HNull
  | JBool b => HBool b
  | JNum z => HNum z
  | JStr s => HStr s
  | JObj props =>
      HObj props
        ((fix all (l : list (string * jsval))
            : Forall (fun kv => P (snd kv)) l :=
            match l with
            | [] => List.Forall_nil _
            | kv :: l' =>
                List.Forall_cons _ kv l' (jsval_nested_ind (snd kv)) (all l')
            end) props)
  end.
End JsvalInd.

(** ** Joining fragments *)

Lemma joinByFragment_go (sep : SqlFragment) (n : nat)
    (fragments : list SqlFragment) (k : nat) :
  fragments ≠ [] -> k + length fragments = n ->
  concat (imap (fun i fragment =>
                  fragment ++ (if decide (k + i ≠ n - 1) then sep else []))
               fragments)
  = separated sep fragments.
Proof.
  revert k. induction fragments as [|f rest IH]; intros k Hne Hlen; [done|].
  destruct rest as [|g rest].
  - simpl in *. rewrite decide_False by lia. by rewrite !app_nil_r.
  - change (imap ?h (f :: ?l)) with (h 0%nat f :: imap (h ∘ S) l).
    cbn [concat]. rewrite decide_True by (simpl in *; lia).
    change (separated sep (f :: g :: rest))
      with (f ++ sep ++ separated sep (g :: rest)).
    rewrite <- app_assoc. do 2 f_equal.
    rewrite <- (IH (S k)); [|done|simpl in *; lia].
    f_equal. apply imap_ext. intros i x _. simpl.
    by replace (k + S i)%nat with (S k + i)%nat by lia.
Qed.

(** [joinByFragment] puts the separator between neighbours only. *)
Lemma joinByFragment_separated (fragments : list SqlFragment)
    (joinBy : SqlFragment) :
  joinByFragment fragments joinBy = separated joinBy fragments.
Proof.
  destruct fragments as [|f rest]; [done|].
  unfold joinByFragment.
  apply (joinByFragment_go joinBy (length (f :: rest)) (f :: rest) 0);
    [done | lia].
Qed.

(** ** Keyword counting *)

Lemma keywordCount_app kw (f g : SqlFragment) :
  keywordCount kw (f ++ g) = keywordCount kw f + keywordCount kw g.
Proof.
  unfold keywordCount. rewrite map_app.
  induction (map _ f) as [|n l IH]; simpl; [done | rewrite IH; lia].
Qed.

Lemma keywordCount_separated kw sep (fragments : list SqlFragment) :
  keywordCount kw sep = 0 ->
  Forall (fun f => keywordCount kw f = 0) fragments ->
  keywordCount kw (separated sep fragments) = 0.
Proof.
  intros Hsep Hall. induction Hall as [|f rest Hf _ IH]; [done|].
  destruct rest as [|g rest]; [done|].
  change (separated sep (f :: g :: rest))
    with (f ++ sep ++ separated sep (g :: rest)).
  rewrite !keywordCount_app, Hf, Hsep, IH. done.
Qed.

Lemma keywordCount_createIdentifier kw column parentTable :
  keywordCount kw (createIdentifier column parentTable) = 0.
Proof. reflexivity. Qed.

(** No template of the predicate compiler but the closing one holds the
    keyword. *)
Lemma whereTemplate_count includeWhere (whereFragments : list SqlFragment) :
  Forall (fun f => keywordCount "WHERE" f = 0) whereFragments ->
  keywordCount "WHERE" (whereTemplate includeWhere whereFragments)
  = if includeWhere && negb (Nat.eqb (length whereFragments) 0) then 1 else 0.
Proof.
  intros Hall. unfold whereTemplate.
  rewrite !keywordCount_app, joinByFragment_separated.
  rewrite (keywordCount_separated "WHERE" [Text " AND "]); [|done|done].
  destruct (includeWhere && _); reflexivity.
Qed.

Lemma switchOperator_count selector operator targetValue fragment :
  keywordCount "WHERE" selector = 0 ->
  switchOperator selector operator targetValue = Some fragment ->
  keywordCount "WHERE" fragment = 0.
Proof.
  intros Hsel. unfold switchOperator.
  repeat (destruct (String.eqb operator _));
    try destruct targetValue; intros [= <-];
    rewrite keywordCount_app, Hsel; reflexivity.
Qed.

(** ** Predicate compiler *)

Lemma generateWhereObject_forEach this parentTable
    (props : list (string * jsval)) :
  (fix forEach (whereEntries : list (string * jsval)) :=
     match whereEntries with
     | [] => Ok []
     | (k, v) :: rest =>
         fragment ← generateWhereObject this k v parentTable;
         fragments ← forEach rest;
         Ok (fragment :: fragments)
     end) props
  = mapM (fun '(key, operators) =>
            generateWhereObject this key operators parentTable) props.
Proof.
  induction props as [|[k v] rest IH]; [done|].
  simpl. destruct (generateWhereObject this k v parentTable); [|done].
  simpl. by rewrite IH.
Qed.

(** Under a relationship key the nested object is compiled by
    [generateWhere] against the referenced table, without the keyword. *)
Lemma generateWhereObject_nested this key props parentTable column r :
  findReference this key parentTable = Ok (column, r) ->
  generateWhereObject this key (JObj props) parentTable
  = generateWhere this props (ref_tableName r) false.
Proof.
  intros Href. simpl. rewrite Href.
  rewrite generateWhereObject_forEach. reflexivity.
Qed.

(** A clause never holds the keyword, whatever the nesting; the only
    exception thrown is the [TypeError] of an empty operator object. *)
Lemma generateWhereObject_count this (operators : jsval) :
  forall key parentTable,
    match generateWhereObject this key operators parentTable with
    | Ok fragment => keywordCount "WHERE" fragment = 0
    | Err e => e = TypeError /\ has_empty_object operators = true
    end.
Proof.
  induction operators as [| | | | |props IH] using jsval_nested_ind;
    intros key parentTable; try reflexivity.
  destruct (findReference this key parentTable) as [[column r]|e] eqn:Href.
  - rewrite (generateWhereObject_nested _ _ _ _ _ _ Href).
    unfold generateWhere.
    assert (Hmap :
      match mapM (fun '(key, operators) =>
                    generateWhereObject this key operators (ref_tableName r))
                 props with
      | Ok fragments => Forall (fun f => keywordCount "WHERE" f = 0) fragments
      | Err e => e = TypeError
                 /\ existsb (fun kv => has_empty_object (snd kv)) props = true
      end).
    { clear Href. induction IH as [|[k v] rest Hv _ IHrest]; [constructor|].
      simpl. specialize (Hv k (ref_tableName r)). simpl in Hv.
      destruct (generateWhereObject this k v (ref_tableName r)); simpl.
      - destruct (mapM _ rest); simpl.
        + by constructor.
        + destruct IHrest as [-> ->]. by rewrite orb_true_r.
      - destruct Hv as [-> ->]. done. }
    destruct (mapM _ props) as [fragments|e]; simpl.
    + by rewrite whereTemplate_count.
    + destruct Hmap as [-> Hex]. split; [done|]. by destruct props.
  - simpl. rewrite Href. destruct props as [|[operator targetValue] rest].
    + done.
    + destruct (switchOperator _ operator targetValue) eqn:Hswitch.
      * exact (switchOperator_count _ _ _ _
                 (keywordCount_createIdentifier _ key parentTable) Hswitch).
      * reflexivity.
Qed.

Lemma generateWhere_fragments this (where_ : list (string * jsval))
    parentTable :
  match mapM (fun '(key, operators) =>
                generateWhereObject this key operators parentTable) where_ with
  | Ok fragments =>
      length fragments = length where_
      /\ Forall (fun f => keywordCount "WHERE" f = 0) fragments
  | Err e =>
      e = TypeError
      /\ existsb (fun kv => has_empty_object (snd kv)) where_ = true
  end.
Proof.
  induction where_ as [|[k v] rest IH]; [by split|].
  simpl. pose proof (generateWhereObject_count this v k parentTable) as Hv.
  destruct (generateWhereObject this k v parentTable); simpl.
  - destruct (mapM _ rest); simpl.
    + destruct IH as [Hlen Hall]. split; [by rewrite Hlen | by constructor].
    + destruct IH as [-> ->]. by rewrite orb_true_r.
  - destruct Hv as [-> ->]. done.
Qed.

(** What an operator object compiles to under a key that is not a
    relationship: the [switch], or the fall-through. *)
Lemma generateWhereObject_operator this key operator targetValue rest
    parentTable e :
  findReference this key parentTable = Err e ->
  generateWhereObject this key (JObj ((operator, targetValue) :: rest))
    parentTable
  = Ok (default
          (createIdentifier key parentTable
           ++ [Text " = "; Value (JStr "[object Object]")])
          (switchOperator (createIdentifier key parentTable) operator
             targetValue)).
Proof.
  intros Href. simpl. rewrite Href.
  by destruct (switchOperator _ operator targetValue).
Qed.

(** The [lte] and [gte] cases of the [switch] are the same fragment. *)
Lemma switchOperator_lte_gte selector targetValue :
  switchOperator selector "lte" targetValue
  = switchOperator selector "gte" targetValue
  /\ switchOperator selector "lte" targetValue
     = Some (selector ++ [Text " >= "; Value targetValue]).
Proof. split; reflexivity. Qed.

Lemma Legacy_switchOperator_lte selector targetValue :
  Legacy.switchOperator selector "lte" targetValue
  = Some (selector +:+ " >= " +:+ js_String targetValue).
Proof. reflexivity. Qed.

(** C1 (the code departs from the specification).  The specification wants [<=] for an
    [lte] entry.  On the filter [{ age: { lte: 5 } }] of the users both
    predicate compilers emit [>=] against the raw value: the [lte] case
    repeats the [gte] case. *)
Theorem lte_entry_compiles_to_gte :
  generateWhereObject User "age" (JObj [("lte", JNum 5)]) "user_"
  = Ok [Ident "user_.age"; Text " >= "; Value (JNum 5)]
  /\ generateWhere User [("age", JObj [("lte", JNum 5)])] "user_" true
     = Ok [Text "WHERE"; Text " "; Ident "user_.age"; Text " >= ";
           Value (JNum 5)]
  /\ Legacy.generateWhere [("age", JObj [("lte", JNum 5)])] "user_"
     = Ok "WHERE user_.age >= 5".
Proof. repeat split; vm_compute; reflexivity. Qed.

(** An [undefined] value is compared like any scalar, by its name. *)
Lemma generateWhereObject_undefined this key parentTable :
  generateWhereObject this key JUndefined parentTable
  = Ok (createIdentifier key parentTable
        ++ [Text " = "; Value (JStr "undefined")]).
Proof. reflexivity. Qed.

(** The older compiler returns nothing for the pair. *)
Lemma Legacy_whereEntry_undefined parentTable key :
  Legacy.whereEntry parentTable (key, JUndefined) = Ok None.
Proof. reflexivity. Qed.

(** C3 (the code departs from the specification).  The specification wants a pair whose
    value is [undefined] skipped.  [generateWhereObject] has no case for
    it: on the filter [{ name: undefined }] of the users the compiled
    predicate holds the clause [user_.name = 'undefined'], where the older
    compiler of [database/Model.ts] returns early and emits no clause. *)
Theorem undefined_value_compiles_to_clause :
  generateWhere User [("name", JUndefined)] "user_" true
  = Ok [Text "WHERE"; Text " "; Ident "user_.name"; Text " = ";
        Value (JStr "undefined")]
  /\ Legacy.generateWhere [("name", JUndefined)] "user_" = Ok "WHERE ".
Proof. split; vm_compute; reflexivity. Qed.

(** C4, as stated, fails: the empty filter description, the default of
    [findMany], compiles to no [WHERE] at all. *)
Lemma empty_filter_has_no_WHERE :
  ~ (forall (this : Model) (where_ : list (string * jsval)),
        exists fragment,
          generateWhere this where_ (tableName this) true = Ok fragment
          /\ keywordCount "WHERE" fragment = 1).
Proof.
  intros Hall. destruct (Hall User []) as (fragment & Hwhere & Hcount).
  vm_compute in Hwhere. injection Hwhere as <-. vm_compute in Hcount.
  discriminate.
Qed.

(** C4 (amended).  For every filter description, relationship keys and
    nesting included: the compiler throws only the [TypeError] of an empty
    operator object; otherwise the compiled predicate holds the keyword
    [WHERE] exactly once when it is compiled with the keyword and the
    filter has an entry, and not at all when it is empty or compiled
    without the keyword, as every recursive sub-compile is. *)
Theorem generateWhere_WHERE_count this (where_ : list (string * jsval))
    parentTable includeWhere :
  match generateWhere this where_ parentTable includeWhere with
  | Ok fragment =>
      keywordCount "WHERE" fragment
      = if includeWhere && negb (Nat.eqb (length where_) 0) then 1 else 0
  | Err e =>
      e = TypeError
      /\ existsb (fun kv => has_empty_object (snd kv)) where_ = true
  end.
Proof.
  unfold generateWhere.
  pose proof (generateWhere_fragments this where_ parentTable) as Hfr.
  destruct (mapM _ where_) as [fragments|e]; simpl; [|done].
  destruct Hfr as [Hlen Hall]. rewrite whereTemplate_count, Hlen; done.
Qed.

(** ** Relation resolver and select compiler *)

(** A boolean include value contributes a join and no select fragment. *)
Lemma generateInclude_boolean this (include : list (string * jsval))
    fragments :
  Forall (fun kv => exists b, snd kv = JBool b) include ->
  generateInclude this include = Ok fragments ->
  selectFragment fragments = []
  /\ length (joinFragment fragments) = length include.
Proof.
  intros Hall. revert fragments.
  induction Hall as [|[columnName select] rest [b Hb] _ IH];
    intros fragments; simpl.
  - intros [= <-]. done.
  - simpl in Hb. subst select.
    destruct (findReference this columnName (tableName this))
      as [[column r]|e]; simpl; [|done].
    destruct (generateInclude this rest) as [later|e]; simpl; [|done].
    intros [= <-]. simpl. destruct (IH later eq_refl) as [-> ->]. done.
Qed.

(** The select fragment of a listed, aliased relation: one aliased
    identifier per listed column, in order, separated by commas. *)
Lemma generateSelect_aliased (column : string) (others : list string)
    parentTable c r :
  generateSelect (column :: others) parentTable (Some (String c r))
    false false
  = [Text " "]
    ++ separated [Text ", "]
         (map (fun column =>
                 [Ident (parentTable +:+ "." +:+ column); Text " ";
                  Text "AS ";
                  Ident ("__" +:+ String c r +:+ "__" +:+ column)])
              (column :: others)).
Proof.
  unfold generateSelect.
  rewrite joinByFragment_separated, app_nil_r. reflexivity.
Qed.

(** A sub-mapping contributes one select fragment, over its keys. *)
Lemma generateInclude_listed this columnName props column r :
  findReference this columnName (tableName this) = Ok (column, r) ->
  generateInclude this [(columnName, JObj props)]
  = Ok {| joinFragment :=
            [[Text "JOIN "; Ident (ref_tableName r); Text " ON ";
              Ident (tableName this +:+ "." +:+ col_name column);
              Text " = ";
              Ident (ref_tableName r +:+ "." +:+ ref_columnName r)]];
          selectFragment :=
            [generateSelect (map fst props) (ref_tableName r)
               (Some columnName) false false] |}.
Proof. intros Href. simpl. rewrite Href. reflexivity. Qed.

(** C2 (the code departs from the specification).  The specification wants an include
    value [true] to bring every column of the referenced table into the
    result.  On [{ avatar_id: true }] of the users the resolver contributes
    the join and no select fragment, so the statement of [findMany] selects
    [user_.*] only; the listed form [{ avatar_id: { src: true } }] does
    contribute its aliased column. *)
Theorem include_true_selects_no_column :
  generateInclude User [("avatar_id", JBool true)]
  = Ok {| joinFragment :=
            [[Text "JOIN "; Ident "avatar"; Text " ON ";
              Ident "user_.avatar_id"; Text " = "; Ident "avatar.id"]];
          selectFragment := [] |}
  /\ (exists statement,
        findManyStatement User 1
          {| select := None; where_ := None;
             include := Some [("avatar_id", JBool true)];
             limit := None; orderBy := JUndefined |} = Ok statement
        /\ words statement
           = [Text "SELECT"; Ident "user_"; Text ".*"; Text "FROM";
              Ident "user_"; Text "JOIN"; Ident "avatar"; Text "ON";
              Ident "user_.avatar_id"; Text "="; Ident "avatar.id"])
  /\ (exists fragments,
        generateInclude User [("avatar_id", JObj [("src", JBool true)])]
        = Ok fragments
        /\ selectFragment fragments
           = [[Text " "; Ident "avatar.src"; Text " "; Text "AS ";
               Ident "__avatar_id__src"]]).
Proof.
  split; [vm_compute; reflexivity|].
  split; eexists; (split; [vm_compute; reflexivity|]); vm_compute;
    reflexivity.
Qed.

(** ** Order compiler *)

Lemma words_app (f g : SqlFragment) : words (f ++ g) = words f ++ words g.
Proof. unfold words. by rewrite map_app, concat_app. Qed.

(** An exception of the grouping pass leaves [generateOrderBy] as it is. *)
Lemma generateOrderBy_Err this stack orderBy e :
  generateOrderByObject this stack orderBy (tableName this) = Err e ->
  generateOrderBy this stack orderBy = Err e.
Proof. intros H. unfold generateOrderBy. by rewrite H. Qed.

(** A description whose keys are no relationships of the model's table:
    the groups are the keys sorted ASC and the keys sorted DESC, in the
    order of the description, and one frame is enough. *)
Lemma orderByLoop_flat this recurse parentTable
    (entries : list (string * jsval)) :
  Forall (fun kv => exists e,
              findReference this (fst kv) (tableName this) = Err e) entries ->
  orderByLoop this recurse parentTable entries
  = Ok {| ascFragment := sortedBy "ASC" parentTable entries;
          descFragment := sortedBy "DESC" parentTable entries |}.
Proof.
  intros Hall.
  induction Hall as [|[columnName order] rest [e He] _ IH]; [done|].
  simpl in He. simpl. rewrite He, IH. simpl.
  unfold sortedBy. rewrite !filter_cons. simpl.
  destruct order as [| | | |o|]; try reflexivity.
  simpl. destruct (String.eqb o "DESC") eqn:Hdesc.
  - apply String.eqb_eq in Hdesc. subst o. reflexivity.
  - destruct (String.eqb o "ASC") eqn:Hasc; reflexivity.
Qed.

Lemma generateOrderByObject_flat this stack (entries : list (string * jsval))
    parentTable :
  Forall (fun kv => exists e,
              findReference this (fst kv) (tableName this) = Err e) entries ->
  generateOrderByObject this (S stack) (JObj entries) parentTable
  = Ok {| ascFragment := sortedBy "ASC" parentTable entries;
          descFragment := sortedBy "DESC" parentTable entries |}.
Proof. intros Hall. simpl. by apply orderByLoop_flat. Qed.

(** Under a relationship key the nested description is grouped against
    the referenced table, one frame down. *)
Lemma generateOrderByObject_relationship this stack columnName
    (nested : list (string * jsval)) parentTable column r :
  findReference this columnName (tableName this) = Ok (column, r) ->
  Forall (fun kv => exists e,
              findReference this (fst kv) (tableName this) = Err e) nested ->
  generateOrderByObject this (S (S stack)) (JObj [(columnName, JObj nested)])
    parentTable
  = Ok {| ascFragment := sortedBy "ASC" (ref_tableName r) nested;
          descFragment := sortedBy "DESC" (ref_tableName r) nested |}.
Proof.
  intros Href Hall.
  change (generateOrderByObject this (S (S stack))
            (JObj [(columnName, JObj nested)]) parentTable)
    with (orderByLoop this (generateOrderByObject this (S stack)) parentTable
            [(columnName, JObj nested)]).
  cbn [orderByLoop]. rewrite Href.
  rewrite (generateOrderByObject_flat _ _ _ _ Hall).
  cbn [mbind result_bind pushOrder ascFragment descFragment app].
  by rewrite !app_nil_r.
Qed.

(** C7.  For every order description on which the grouping pass returns
    its two groups, [generateOrderBy] returns a fragment that reads, up to
    the layout of the template: [ORDER BY <asc-list> ASC] when there are
    ascending entries, followed by [, <desc-list> DESC] when there are
    descending ones too; [ORDER BY <desc-list> DESC] when there are only
    descending entries; and it is the empty fragment when there are
    neither. *)
Theorem generateOrderBy_clause this stack orderBy groups :
  generateOrderByObject this stack orderBy (tableName this) = Ok groups ->
  exists fragment,
    generateOrderBy this stack orderBy = Ok fragment
    /\ words fragment
       = orderByWords (ascFragment groups) (descFragment groups)
    /\ (ascFragment groups = [] -> descFragment groups = [] ->
        fragment = []).
Proof.
  intros Hgroups. unfold generateOrderBy. rewrite Hgroups.
  cbn [mbind result_bind]. rewrite !joinByFragment_separated.
  destruct groups as [asc desc]. cbn [ascFragment descFragment].
  destruct asc as [|a asc], desc as [|d desc];
    cbn [length Nat.eqb negb andb];
    eexists; (split; [reflexivity|]); (split; [|intros; congruence]).
  all: repeat (rewrite ?words_app; rewrite <- ?app_assoc).
  all: reflexivity.
Qed.

(** Frames never run out on a result already obtained. *)
Lemma orderByLoop_mono this (recurse recurse' : jsval -> string -> _)
    parentTable (entries : list (string * jsval)) groups :
  (forall order table nested,
      recurse order table = Ok nested -> recurse' order table = Ok nested) ->
  orderByLoop this recurse parentTable entries = Ok groups ->
  orderByLoop this recurse' parentTable entries = Ok groups.
Proof.
  intros Hrec. revert groups.
  induction entries as [|[columnName order] rest IH]; intros groups; [done|].
  simpl. destruct (findReference this columnName (tableName this))
    as [[column r]|e].
  - destruct (recurse order (ref_tableName r)) as [nested|] eqn:Hnested;
      simpl; [|done].
    rewrite (Hrec _ _ _ Hnested). simpl.
    destruct (orderByLoop this recurse parentTable rest) as [later|];
      simpl; [|done].
    by rewrite (IH later eq_refl).
  - simpl.
    destruct (orderByLoop this recurse parentTable rest) as [later|];
      simpl; [|done].
    by rewrite (IH later eq_refl).
Qed.

Lemma generateOrderByObject_stack_mono this stack :
  forall orderBy parentTable groups stack',
    generateOrderByObject this stack orderBy parentTable = Ok groups ->
    stack <= stack' ->
    generateOrderByObject this stack' orderBy parentTable = Ok groups.
Proof.
  induction stack as [|stack IH]; intros orderBy parentTable groups stack';
    [done|].
  intros Hgroups Hle. destruct stack' as [|stack']; [lia|].
  simpl in *.
  destruct (match orderBy with JUndefined => Ok [] | _ => _ end)
    as [entries|]; simpl in *; [|done].
  eapply orderByLoop_mono; [|exact Hgroups].
  intros order table nested Hnested. apply IH; [done | lia].
Qed.

(** ** Query facade *)

Lemma formatRows_length σ rows : length (formatRows σ rows).2 = length rows.
Proof.
  revert σ. induction rows as [|row rest IH]; intros σ; [done|].
  cbn [formatRows]. destruct (formatRow σ row) as [σ1 formatted].
  specialize (IH σ1). destruct (formatRows σ1 rest) as [σ2 others].
  simpl in *. by f_equal.
Qed.

Lemma findMany_rows sql this stack args σ statement rows σ1 :
  findManyStatement this stack args = Ok statement ->
  sql statement σ = Ok (rows, σ1) ->
  findMany sql this stack args σ
  = Ok ((formatRows σ1 rows).2, (formatRows σ1 rows).1).
Proof.
  intros Hst Hsql. unfold findMany. rewrite Hst. simpl. rewrite Hsql. simpl.
  by destruct (formatRows σ1 rows).
Qed.

Lemma holds_here (part after : SqlFragment) : holds part (part ++ after).
Proof. by exists [], after. Qed.

Lemma holds_cons p (part fragment : SqlFragment) :
  holds part fragment -> holds part (p :: fragment).
Proof. intros (before & after & ->). by exists (p :: before), after. Qed.

Lemma holds_app_r (part skipped fragment : SqlFragment) :
  holds part fragment -> holds part (skipped ++ fragment).
Proof.
  intros (before & after & ->). exists (skipped ++ before), after.
  by rewrite <- app_assoc.
Qed.

(** The statement of a [find] carries the row limit of one. *)
Lemma findManyStatement_limitOne this stack args statement :
  findManyStatement this stack (limitOne args) = Ok statement ->
  holds [Text "LIMIT "; Value (JNum 1)] statement.
Proof.
  unfold findManyStatement.
  destruct (generateInclude _ _) as [fragments|]; [|done].
  cbn [mbind result_bind].
  destruct (generateWhere _ _ _ _) as [whereFragment|]; [|done].
  cbn [mbind result_bind].
  destruct (generateOrderBy _ _ _) as [orderFragment|]; [|done].
  cbn [mbind result_bind limit limitOne Z.eqb].
  intros [= <-].
  repeat first
    [ apply (holds_here [Text "LIMIT "; Value (JNum 1)])
    | apply holds_cons
    | apply holds_app_r ].
Qed.

(** C5.  Whatever rows the executor returns for the statement of a
    [create] or of an [update]: with exactly one row the operation returns
    that row; with none, or with two or more, it fails with the
    UnexpectedRowCount condition, the failed assertion on the row count. *)
Theorem create_update_row_count sql this createArgs updateArgs statement
    σ rows σ1 rows' σ1' :
  sql (createStatement this createArgs) σ = Ok (rows, σ1) ->
  updateStatement this updateArgs = Ok statement ->
  sql statement σ = Ok (rows', σ1') ->
  (forall row, rows = [row] ->
     create sql this createArgs σ = Ok (VRef row, σ1))
  /\ (length rows ≠ 1 ->
      exists e, create sql this createArgs σ = Err e /\ UnexpectedRowCount e)
  /\ (forall row, rows' = [row] ->
        update sql this updateArgs σ = Ok (VRef row, σ1'))
  /\ (length rows' ≠ 1 ->
      exists e, update sql this updateArgs σ = Err e /\ UnexpectedRowCount e).
Proof.
  intros Hcreate Hstatement Hupdate.
  unfold create, update. rewrite Hcreate, Hstatement. simpl.
  rewrite Hupdate. simpl. unfold UnexpectedRowCount.
  repeat split.
  - by intros row ->.
  - intros Hlen. destruct (Nat.eqb_spec (length rows) 1); [done|].
    simpl. eauto.
  - by intros row ->.
  - intros Hlen. destruct (Nat.eqb_spec (length rows') 1); [done|].
    simpl. eauto.
Qed.

(** C6.  [find] runs [findMany] on its arguments with [limit: 1], so the
    statement carries [LIMIT 1]; whatever rows the executor returns for
    it, [find] does not throw: with exactly one row it returns that row
    reshaped, otherwise, and so on the empty result set, it returns
    [null]. *)
Theorem find_sole_row_or_null sql this stack args σ statement rows σ1 :
  findManyStatement this stack (limitOne args) = Ok statement ->
  sql statement σ = Ok (rows, σ1) ->
  limit (limitOne args) = Some 1%Z
  /\ holds [Text "LIMIT "; Value (JNum 1)] statement
  /\ findMany sql this stack (limitOne args) σ
     = Ok ((formatRows σ1 rows).2, (formatRows σ1 rows).1)
  /\ (forall row, rows = [row] ->
        find sql this stack args σ
        = Ok (VRef (formatRow σ1 row).2, (formatRow σ1 row).1))
  /\ (length rows ≠ 1 ->
      find sql this stack args σ = Ok (VNull, (formatRows σ1 rows).1))
  /\ (rows = [] -> find sql this stack args σ = Ok (VNull, σ1)).
Proof.
  intros Hst Hsql.
  pose proof (findMany_rows _ _ _ _ _ _ _ _ Hst Hsql) as Hmany.
  split; [done|]. split; [by eapply findManyStatement_limitOne|].
  split; [done|]. unfold find. rewrite Hmany. cbn [mbind result_bind].
  rewrite formatRows_length. repeat split.
  - intros row ->. cbn [formatRows length Nat.eqb].
    by destruct (formatRow σ1 row).
  - intros Hlen. by destruct (Nat.eqb_spec (length rows) 1).
  - by intros ->.
Qed.

(** ** The store *)

Lemma deref_alloc (σ : store) (o : obj) : deref (σ ++ [o]) (length σ) = o.
Proof. unfold deref. by rewrite list_lookup_middle. Qed.

Lemma deref_old (σ ext : store) (l : loc) :
  l < length σ -> deref (σ ++ ext) l = deref σ l.
Proof. intros Hl. unfold deref. by rewrite lookup_app_l. Qed.

Lemma deref_insert (σ : store) (l : loc) (o : obj) :
  l < length σ -> deref (<[l := o]> σ) l = o.
Proof. intros Hl. unfold deref. by rewrite list_lookup_insert_eq. Qed.

(** Writing at or above the end of [σ] leaves [σ] a prefix. *)
Lemma prefix_insert_above (σ σ' : store) (l : loc) (o : obj) :
  σ `prefix_of` σ' -> length σ <= l -> σ `prefix_of` <[l := o]> σ'.
Proof.
  intros [ext ->] Hl. rewrite insert_app_r_alt by done.
  by apply prefix_app_r.
Qed.

(** ** Row reshaper *)

(** A turn of the loop on a key without the marker does nothing. *)
Lemma formatRow_step_unmarked row σ key :
  alias_marked key = false -> formatRow_step row σ key = σ.
Proof. intros H. unfold formatRow_step. by rewrite H. Qed.

Lemma formatRow_loop_unmarked row σ (keys : list string) :
  Forall (fun key => alias_marked key = false) keys ->
  foldl (formatRow_step row) σ keys = σ.
Proof.
  intros Hall. induction Hall as [|key keys Hkey _ IH]; [done|].
  simpl. by rewrite formatRow_step_unmarked.
Qed.

(** On a row without alias-marked keys the reshaper allocates a copy and
    stops. *)
Lemma formatRow_copy σ rowSource :
  Forall (fun kv => alias_marked (fst kv) = false) (deref σ rowSource) ->
  formatRow σ rowSource = (σ ++ [deref σ rowSource], length σ).
Proof.
  intros Hall. unfold formatRow, alloc. rewrite deref_alloc.
  rewrite formatRow_loop_unmarked; [done|].
  by apply Forall_fmap.
Qed.

(** C9.  For every row without alias-marked keys, reshaping returns it
    unchanged: the returned object has the properties of the row, in the
    same order and with the same values, and the store only grows by that
    object. *)
Theorem formatRow_unmarked_unchanged σ rowSource :
  Forall (fun kv => alias_marked (fst kv) = false) (deref σ rowSource) ->
  deref (formatRow σ rowSource).1 (formatRow σ rowSource).2
  = deref σ rowSource
  /\ (formatRow σ rowSource).1 = σ ++ [deref σ rowSource].
Proof.
  intros Hall. rewrite (formatRow_copy _ _ Hall). simpl.
  by rewrite deref_alloc.
Qed.

(** A turn of the loop writes at the copy and above only, and keeps the
    copy in the store. *)
Lemma formatRow_step_frame (σ : store) row σ' key :
  length σ <= row -> row < length σ' -> σ `prefix_of` σ' ->
  σ `prefix_of` formatRow_step row σ' key
  /\ row < length (formatRow_step row σ' key).
Proof.
  intros Hrow Hlt Hpre. unfold formatRow_step.
  destruct (alias_marked key); [|done].
  unfold alloc, store_set, store_delete. split.
  - apply prefix_insert_above; [|done]. apply prefix_app_r.
    by apply prefix_insert_above.
  - rewrite length_insert, length_app, length_insert. lia.
Qed.

Lemma formatRow_loop_frame (σ : store) row (keys : list string) :
  forall σ',
    length σ <= row -> row < length σ' -> σ `prefix_of` σ' ->
    σ `prefix_of` foldl (formatRow_step row) σ' keys
    /\ row < length (foldl (formatRow_step row) σ' keys).
Proof.
  induction keys as [|key keys IH]; intros σ' Hrow Hlt Hpre; [done|].
  simpl. destruct (formatRow_step_frame σ row σ' key Hrow Hlt Hpre).
  by apply IH.
Qed.

(** The reshaper returns a new location and extends the store. *)
Lemma formatRow_frame σ rowSource :
  (formatRow σ rowSource).2 = length σ
  /\ σ `prefix_of` (formatRow σ rowSource).1
  /\ length σ < length (formatRow σ rowSource).1.
Proof.
  unfold formatRow, alloc. cbn [fst snd]. split; [done|].
  apply formatRow_loop_frame.
  - done.
  - rewrite length_app. simpl. lia.
  - by apply prefix_app_r.
Qed.

(** The same for a whole result set, as [findMany] reshapes it. *)
Lemma formatRows_frame (rows : list loc) :
  forall σ,
    σ `prefix_of` (formatRows σ rows).1
    /\ Forall (fun row => length σ <= row) (formatRows σ rows).2.
Proof.
  induction rows as [|row rest IH]; intros σ; [done|].
  cbn [formatRows].
  destruct (formatRow_frame σ row) as (Hloc & Hpre & Hlen).
  destruct (formatRow σ row) as [σ1 formatted]. cbn [fst snd] in *.
  destruct (IH σ1) as [Hpre' Hall].
  destruct (formatRows σ1 rest) as [σ2 others]. cbn [fst snd] in *.
  split; [by etrans|]. constructor; [lia|].
  eapply Forall_impl; [exact Hall|]. simpl. intros l Hl.
  apply prefix_length in Hpre. lia.
Qed.

(** C10.  The reshaper never mutates its input: after the call the row
    passed in has the properties it had, like every other object the
    store held, and the result is an object that was not in the store
    before, so a different one. *)
Theorem formatRow_input_unchanged σ rowSource o :
  σ !! rowSource = Some o ->
  (formatRow σ rowSource).1 !! rowSource = Some o
  /\ (forall l o', σ !! l = Some o' -> (formatRow σ rowSource).1 !! l = Some o')
  /\ (formatRow σ rowSource).2 ≠ rowSource
  /\ σ !! (formatRow σ rowSource).2 = None
  /\ is_Some ((formatRow σ rowSource).1 !! (formatRow σ rowSource).2).
Proof.
  intros Hrow. destruct (formatRow_frame σ rowSource) as (Hloc & Hpre & Hlen).
  rewrite Hloc. apply lookup_lt_Some in Hrow as Hlt.
  split; [by eapply prefix_lookup_Some|].
  split; [intros l o' Hl; by eapply prefix_lookup_Some|].
  split; [lia|]. split; [by apply lookup_ge_None_2|].
  by apply lookup_lt_is_Some_2.
Qed.

Lemma insert_last (σ ext : store) (o o' : obj) :
  <[length σ := o']> (σ ++ o :: ext) = σ ++ o' :: ext.
Proof. rewrite insert_app_r_alt by done. by rewrite Nat.sub_diag. Qed.

Lemma deref_middle (σ ext : store) (o : obj) :
  deref (σ ++ o :: ext) (length σ) = o.
Proof. unfold deref. by rewrite list_lookup_middle. Qed.

Lemma deref_next (σ : store) (o o' : obj) :
  deref (σ ++ [o; o']) (S (length σ)) = o'.
Proof.
  change (σ ++ [o; o']) with (σ ++ [o] ++ [o']). rewrite app_assoc.
  replace (S (length σ)) with (length (σ ++ [o]))
    by (rewrite length_app; simpl; lia).
  apply deref_alloc.
Qed.

(** The flat row [{ a: 1, __r__c: 2 }], in any store: the copy loses the
    aliased key and gets [r], a new object with the column [c]. *)
Lemma formatRow_aliased σ rowSource :
  σ !! rowSource = Some [("a", VNum 1); ("__r__c", VNum 2)] ->
  formatRow σ rowSource
  = (σ ++ [[("a", VNum 1); ("r", VRef (S (length σ)))]; [("c", VNum 2)]],
     length σ).
Proof.
  intros Hrow. unfold formatRow, alloc.
  assert (Hsrc : deref σ rowSource = [("a", VNum 1); ("__r__c", VNum 2)])
    by (unfold deref; by rewrite Hrow).
  rewrite Hsrc, deref_alloc. cbn [map fst foldl].
  rewrite (formatRow_step_unmarked _ _ "a") by reflexivity.
  unfold formatRow_step.
  change (alias_marked "__r__c") with true. cbv iota.
  change (alias_parts "__r__c") with ["r"; "c"].
  cbn [lookup list_lookup property_key default from_option id].
  unfold store_delete, store_set, alloc.
  rewrite deref_alloc, insert_last, deref_alloc.
  change (obj_delete [("a", VNum 1); ("__r__c", VNum 2)] "__r__c")
    with [("a", VNum 1)].
  cbn [obj_get String.eqb Ascii.eqb Bool.eqb].
  rewrite <- app_assoc. cbn [app].
  rewrite deref_middle, insert_last, length_app. cbn [length].
  rewrite Nat.add_1_r. reflexivity.
Qed.

(** C8.  Round trip of an alias: for the include [{ r: { c: true } }] the
    select compiler emits the column of the referenced table under the
    alias [__r__c], and reshaping the flat row [{ a: 1, __r__c: 2 }], in
    whatever store it lives, returns [{ a: 1, r: { c: 2 } }]: the aliased
    key is gone and its value sits under the relation key. *)
Theorem alias_round_trip σ rowSource :
  σ !! rowSource = Some [("a", VNum 1); ("__r__c", VNum 2)] ->
  (exists fragments,
      generateInclude T [("r", JObj [("c", JBool true)])] = Ok fragments
      /\ selectFragment fragments
         = [[Text " "; Ident "s.c"; Text " "; Text "AS "; Ident "__r__c"]])
  /\ snapshot 2 (formatRow σ rowSource).1 (VRef (formatRow σ rowSource).2)
     = JObj [("a", JNum 1); ("r", JObj [("c", JNum 2)])]
  /\ obj_has (deref (formatRow σ rowSource).1 (formatRow σ rowSource).2)
       "__r__c" = false.
Proof.
  intros Hrow. split.
  { eexists. split; vm_compute; reflexivity. }
  rewrite (formatRow_aliased _ _ Hrow). cbn [fst snd snapshot].
  rewrite deref_middle. cbn [map fst snd snapshot].
  rewrite deref_next. split; reflexivity.
Qed.

(** ** No alias survives the reshaper *)

Lemma dunder_free_cons a b s :
  dunder_free (String a (String b s))
  = negb (Ascii.eqb a "_" && Ascii.eqb b "_") && dunder_free (String b s).
Proof. reflexivity. Qed.

Lemma dunder_free_tail a s : dunder_free (String a s) = true ->
  dunder_free s = true.
Proof.
  destruct s as [|b s]; [done|]. simpl.
  intros H. apply andb_true_iff in H. tauto.
Qed.

Lemma dunder_free_unmarked s : dunder_free s = true -> alias_marked s = false.
Proof.
  unfold alias_marked.
  destruct s as [|a [|b s]]; cbn [String.prefix dunder_free]; [done| |].
  - by destruct (ascii_dec "_" a).
  - destruct (ascii_dec "_" a) as [<-|]; [|done].
    destruct (ascii_dec "_" b) as [<-|]; done.
Qed.

(** The first part of a split is empty or begins like the string. *)
Lemma split_dunder_head s :
  exists part parts,
    split_dunder s = part :: parts
    /\ (part = EmptyString
        \/ exists c s' part', s = String c s' /\ part = String c part').
Proof.
  destruct s as [|c s]; [by exists EmptyString, []; auto|].
  assert (Hkeep : exists part parts,
    match split_dunder s with
    | part :: parts => String c part :: parts
    | [] => [String c EmptyString]
    end = part :: parts
    /\ (part = EmptyString
        \/ exists c0 s' part', String c s = String c0 s'
                               /\ part = String c0 part')).
  { destruct (split_dunder s) as [|part parts]; eexists _, _;
      (split; [reflexivity|]); right; eauto. }
  simpl. destruct s as [|c' s]; [exact Hkeep|].
  destruct (Ascii.eqb c "_" && Ascii.eqb c' "_"); [|exact Hkeep].
  eexists _, _. split; [reflexivity|]. by left.
Qed.

Lemma split_dunder_free_both s :
  Forall (fun part => dunder_free part = true) (split_dunder s)
  /\ forall c,
      Forall (fun part => dunder_free part = true) (split_dunder (String c s)).
Proof.
  induction s as [|c' s [IHs IHcs]].
  - split; [by repeat constructor|]. intros c. by repeat constructor.
  - split; [apply IHcs|]. intros c.
    change (split_dunder (String c (String c' s)))
      with (if Ascii.eqb c "_" && Ascii.eqb c' "_"
            then EmptyString :: split_dunder s
            else match split_dunder (String c' s) with
                 | part :: parts => String c part :: parts
                 | [] => [String c EmptyString]
                 end).
    destruct (Ascii.eqb c "_" && Ascii.eqb c' "_") eqn:Hcut.
    + by constructor.
    + specialize (IHcs c').
      destruct (split_dunder_head (String c' s))
        as (part & parts & Hsplit & Hhead).
      rewrite Hsplit in *. apply Forall_cons in IHcs as [Hpart Hparts].
      constructor; [|done].
      destruct Hhead as [->|(c0 & s' & part' & [= <- <-] & ->)]; [done|].
      by rewrite dunder_free_cons, Hcut, Hpart.
Qed.

Lemma split_dunder_free s :
  Forall (fun part => dunder_free part = true) (split_dunder s).
Proof. apply split_dunder_free_both. Qed.

Lemma dunder_free_trim_start s :
  dunder_free s = true -> dunder_free (trim_start s) = true.
Proof.
  induction s as [|c s IH]; [done|]. intros H. simpl.
  destruct (is_space c); [|done]. apply IH. by eapply dunder_free_tail.
Qed.

Lemma trim_end_head c s b t :
  trim_end (String c s) = String b t -> b = c.
Proof.
  simpl. destruct (trim_end s); [destruct (is_space c)|]; congruence.
Qed.

Lemma dunder_free_trim_end s :
  dunder_free s = true -> dunder_free (trim_end s) = true.
Proof.
  induction s as [|c s IH]; [done|]. intros H.
  pose proof (dunder_free_tail _ _ H) as Htail. specialize (IH Htail).
  cbn [trim_end]. destruct (trim_end s) as [|b t] eqn:Htrim.
  - by destruct (is_space c).
  - destruct s as [|c' s]; [done|].
    apply trim_end_head in Htrim as Hb. subst b.
    rewrite dunder_free_cons in H |- *.
    apply andb_true_iff in H as [Hpair _]. by rewrite Hpair, IH.
Qed.

(** Neither part of an alias, nor the name that stands for a missing
    part, carries the marker. *)
Lemma alias_parts_unmarked key i :
  alias_marked (property_key (alias_parts key !! i)) = false.
Proof.
  destruct (alias_parts key !! i) as [part|] eqn:Hpart; [|done].
  simpl. apply dunder_free_unmarked.
  apply list_elem_of_lookup_2 in Hpart.
  unfold alias_parts in Hpart. apply list_elem_of_filter in Hpart as [_ Hin].
  apply list_elem_of_fmap in Hin as (raw & -> & Hraw).
  unfold trim. apply dunder_free_trim_end, dunder_free_trim_start.
  pose proof (split_dunder_free key) as Hall.
  rewrite Forall_forall in Hall. by apply Hall.
Qed.

Lemma obj_delete_keys (o : obj) key k :
  k ∈ map fst (obj_delete o key) -> k ∈ map fst o /\ k ≠ key.
Proof.
  intros Hk. apply list_elem_of_fmap in Hk as ([k' v] & -> & Hin).
  unfold obj_delete in Hin. apply list_elem_of_filter in Hin as [Hne Hin].
  simpl in *. split.
  - apply list_elem_of_fmap. by exists (k', v).
  - intros ->. by rewrite String.eqb_refl in Hne.
Qed.

Lemma obj_replace_keys key v (o : obj) :
  map fst (obj_replace key v o) = map fst o.
Proof.
  induction o as [|[k w] o IH]; [done|]. simpl.
  destruct (String.eqb k key); simpl; by rewrite ?IH.
Qed.

Lemma obj_insert_index_keys n key v (o : obj) k :
  k ∈ map fst (obj_insert_index n key v o) -> k = key \/ k ∈ map fst o.
Proof.
  induction o as [|[k' w] o IH]; simpl.
  - intros Hk. apply list_elem_of_singleton in Hk. by left.
  - destruct (array_index k') as [m|]; [destruct (m <? n)%N|]; simpl;
      intros Hk; apply elem_of_cons in Hk as [->|Hk]; auto.
    + right. by left.
    + destruct (IH Hk) as [->|Hin]; [by left|]. right. by right.
Qed.

Lemma obj_set_keys key v (o : obj) k :
  k ∈ map fst (obj_set key v o) -> k = key \/ k ∈ map fst o.
Proof.
  unfold obj_set. destruct (obj_has o key).
  - rewrite obj_replace_keys. by right.
  - destruct (array_index key) as [n|].
    + apply obj_insert_index_keys.
    + rewrite map_app. simpl. intros Hk.
      apply elem_of_app in Hk as [Hk|Hk]; [by right|].
      apply list_elem_of_singleton in Hk. by left.
Qed.

(** After a turn of the loop the marked keys of the copy are among the
    keys still to be visited. *)
Lemma formatRow_step_marked row (σ : store) key (rest : list string) :
  row < length σ ->
  (forall k, k ∈ map fst (deref σ row) -> alias_marked k = true ->
             k ∈ key :: rest) ->
  row < length (formatRow_step row σ key)
  /\ (forall k, k ∈ map fst (deref (formatRow_step row σ key) row) ->
                alias_marked k = true -> k ∈ rest).
Proof.
  intros Hrow Hinv. unfold formatRow_step.
  destruct (alias_marked key) eqn:Hkey.
  - unfold alloc, store_set, store_delete. split.
    { rewrite length_insert, length_app, length_insert. lia. }
    intros k Hk Hmarked.
    rewrite deref_insert in Hk
      by (rewrite length_app, length_insert; lia).
    apply obj_set_keys in Hk as [->|Hk].
    { by rewrite alias_parts_unmarked in Hmarked. }
    rewrite deref_old, deref_insert in Hk by (rewrite ?length_insert; lia).
    apply obj_delete_keys in Hk as [Hk Hne].
    specialize (Hinv k Hk Hmarked).
    apply elem_of_cons in Hinv as [->|Hin]; done.
  - split; [done|]. intros k Hk Hmarked.
    specialize (Hinv k Hk Hmarked).
    apply elem_of_cons in Hinv as [->|Hin]; [congruence|done].
Qed.

Lemma formatRow_loop_marked row (keys : list string) :
  forall σ : store,
    row < length σ ->
    (forall k, k ∈ map fst (deref σ row) -> alias_marked k = true ->
               k ∈ keys) ->
    forall k, k ∈ map fst (deref (foldl (formatRow_step row) σ keys) row) ->
              alias_marked k = false.
Proof.
  induction keys as [|key rest IH]; intros σ Hrow Hinv k Hk.
  - simpl in Hk. destruct (alias_marked k) eqn:Hmarked; [|done].
    specialize (Hinv k Hk Hmarked). by apply elem_of_nil in Hinv.
  - simpl in Hk.
    destruct (formatRow_step_marked row σ key rest Hrow Hinv) as [Hlt Hinv'].
    by apply (IH _ Hlt Hinv').
Qed.

(** The object returned by the reshaper has no alias-marked key. *)
Lemma formatRow_result_unmarked σ rowSource :
  Forall (fun kv => alias_marked (fst kv) = false)
    (deref (formatRow σ rowSource).1 (formatRow σ rowSource).2).
Proof.
  unfold formatRow, alloc. cbn [fst snd].
  apply Forall_forall. intros [k v] Hin.
  apply (formatRow_loop_marked (length σ)
           (map fst (deref (σ ++ [deref σ rowSource]) (length σ)))
           (σ ++ [deref σ rowSource])).
  - rewrite length_app. simpl. lia.
  - auto.
  - apply list_elem_of_fmap. by exists (k, v).
Qed.

(** Reshaping is idempotent: reshaping a reshaped row returns an object
    with the properties of that row. *)
Lemma formatRow_idempotent σ rowSource :
  let once := formatRow σ rowSource in
  let twice := formatRow once.1 once.2 in
  deref twice.1 twice.2 = deref once.1 once.2
  /\ twice.1 = once.1 ++ [deref once.1 once.2].
Proof.
  intros once twice. unfold twice.
  rewrite (formatRow_copy once.1 once.2 (formatRow_result_unmarked _ _)).
  cbn [fst snd]. by rewrite deref_alloc.
Qed.

(** ** Instances *)

(** C5 on the users, with an executor that returns one row. *)
Lemma create_update_row_count_witness :
  create (rowsExecutor 1) User exampleCreate [] = Ok (VRef 0, [exampleRow])
  /\ update (rowsExecutor 1) User exampleUpdate [] = Ok (VRef 0, [exampleRow]).
Proof.
  destruct (create_update_row_count (rowsExecutor 1) User exampleCreate
              exampleUpdate exampleUpdateStatement [] [0] [exampleRow] [0]
              [exampleRow])
    as (Hcreate & _ & Hupdate & _).
  - vm_compute. reflexivity.
  - vm_compute. reflexivity.
  - vm_compute. reflexivity.
  - split; [exact (Hcreate 0 eq_refl) | exact (Hupdate 0 eq_refl)].
Defined.

(** With no row, or with two, the assertion fails. *)
Example create_update_wrong_count :
  create (rowsExecutor 0) User exampleCreate []
  = Err (AssertionError "expected to create a single row")
  /\ create (rowsExecutor 2) User exampleCreate []
     = Err (AssertionError "expected to create a single row")
  /\ update (rowsExecutor 0) User exampleUpdate []
     = Err (AssertionError "expected to update a single row")
  /\ update (rowsExecutor 2) User exampleUpdate []
     = Err (AssertionError "expected to update a single row").
Proof. repeat split; vm_compute; reflexivity. Qed.

(** C6 on the users: one row comes back reshaped. *)
Lemma find_sole_row_or_null_witness :
  find (rowsExecutor 1) User 1 exampleFind []
  = Ok (VRef 1,
        [exampleRow; [("id", VNum 1); ("avatar_id", VRef 2)];
         [("src", VStr "a.png")]]).
Proof.
  destruct (find_sole_row_or_null (rowsExecutor 1) User 1 exampleFind []
              exampleFindStatement [0] [exampleRow])
    as (_ & _ & _ & Hone & _).
  { vm_compute. reflexivity. }
  { vm_compute. reflexivity. }
  rewrite (Hone 0 eq_refl). vm_compute. reflexivity.
Defined.

(** No row, or two rows: [null]. *)
Example find_null :
  find (rowsExecutor 0) User 1 exampleFind [] = Ok (VNull, [])
  /\ exists σ, find (rowsExecutor 2) User 1 exampleFind [] = Ok (VNull, σ).
Proof. split; [|eexists]; vm_compute; reflexivity. Qed.

(** C7 on the users: two ascending keys, one of them of the avatar, and
    a descending one. *)
Lemma generateOrderBy_clause_witness :
  exists fragment,
    generateOrderBy User 2 exampleOrder = Ok fragment
    /\ words fragment
       = [Text "ORDER"; Text "BY"; Ident "user_.name"; Text ",";
          Ident "avatar.src"; Text "ASC"; Text ","; Ident "user_.age";
          Text "DESC"].
Proof.
  destruct (generateOrderBy_clause User 2 exampleOrder
              {| ascFragment := [[Ident "user_.name"]; [Ident "avatar.src"]];
                 descFragment := [[Ident "user_.age"]] |})
    as (fragment & Hfragment & Hwords & _).
  - vm_compute. reflexivity.
  - exists fragment. split; [exact Hfragment|]. rewrite Hwords.
    vm_compute. reflexivity.
Defined.

(** C8 in the store that holds the flat row only. *)
Lemma alias_round_trip_witness :
  snapshot 2 (formatRow [[("a", VNum 1); ("__r__c", VNum 2)]] 0).1
    (VRef (formatRow [[("a", VNum 1); ("__r__c", VNum 2)]] 0).2)
  = JObj [("a", JNum 1); ("r", JObj [("c", JNum 2)])].
Proof.
  destruct (alias_round_trip [[("a", VNum 1); ("__r__c", VNum 2)]] 0)
    as (_ & Hshape & _).
  - reflexivity.
  - exact Hshape.
Defined.

(** C9 on a reshaped row. *)
Lemma formatRow_unmarked_unchanged_witness :
  deref (formatRow reshapedStore 0).1 (formatRow reshapedStore 0).2
  = [("a", VNum 1); ("r", VRef 1)]
  /\ (formatRow reshapedStore 0).1
     = reshapedStore ++ [[("a", VNum 1); ("r", VRef 1)]].
Proof.
  apply (formatRow_unmarked_unchanged reshapedStore 0).
  vm_compute. repeat constructor.
Defined.

(** C10 on the flat row of the examples. *)
Lemma formatRow_input_unchanged_witness :
  (formatRow [exampleRow] 0).1 !! 0 = Some exampleRow
  /\ (formatRow [exampleRow] 0).2 ≠ 0.
Proof.
  destruct (formatRow_input_unchanged [exampleRow] 0 exampleRow)
    as (Hsame & _ & Hfresh & _).
  - reflexivity.
  - split; [exact Hsame | exact Hfresh].
Defined.

(** A filter through the relationship [avatar_id] of the users: one
    [WHERE], the nested clauses against [avatar]. *)
Example nested_filter_one_WHERE :
  generateWhere User
    [("avatar_id", JObj [("src", JObj [("contains", JStr "x")]);
                         ("alt", JNull)]);
     ("age", JObj [("gt", JNum 3)])] "user_" true
  = Ok [Text "WHERE"; Text " "; Text " "; Ident "avatar.src";
        Text " LIKE '%"; Value (JStr "x"); Text "%'"; Text " AND ";
        Ident "avatar.alt"; Text " IS NULL"; Text " AND ";
        Ident "user_.age"; Text " > "; Value (JNum 3)].
Proof. vm_compute. reflexivity. Qed.

(** * Further properties of the code *)

(** ** Joining *)

(** [joinByFragment] by its neighbours: nothing for no fragment, the
    fragment itself for one, and the separator after every fragment but
    the last; no separator leads or trails. *)
Theorem joinByFragment_neighbours (fragment next : SqlFragment)
    (rest : list SqlFragment) (joinBy : SqlFragment) :
  joinByFragment [] joinBy = []
  /\ joinByFragment [fragment] joinBy = fragment
  /\ joinByFragment (fragment :: next :: rest) joinBy
     = fragment ++ joinBy ++ joinByFragment (next :: rest) joinBy.
Proof.
  split; [done|]. split; [by rewrite joinByFragment_separated|].
  by rewrite !joinByFragment_separated.
Qed.

(** ** Schema registry *)

(** [findReference] returns a column exactly when the table is known, has
    the column, and the column is a foreign key; it returns that column
    with its reference. *)
Theorem findReference_Ok_iff this columnName parentTable column r :
  findReference this columnName parentTable = Ok (column, r)
  <-> exists table,
        tables (database this) !! parentTable = Some table
        /\ columns table !! columnName = Some column
        /\ reference column = Some r.
Proof.
  unfold findReference, getTable, getColumn. split.
  - destruct (tables (database this) !! parentTable) as [table|] eqn:Htable;
      cbn [mbind result_bind]; [|done].
    destruct (columns table !! columnName) as [column'|] eqn:Hcolumn; [|done].
    destruct (reference column') as [r'|] eqn:Href; [|done].
    intros [= <- <-]. by exists table.
  - intros (table & -> & Hcolumn & Href). cbn [mbind result_bind].
    by rewrite Hcolumn, Href.
Qed.


(** A registered table is found again, the other names answer as before,
    and a taken name is refused. *)
Theorem addTable_getTable database table database' :
  addTable database table = inr database' ->
  getTable database' (tbl_name table) = Ok table
  /\ (forall name, name ≠ tbl_name table ->
        getTable database' name = getTable database name)
  /\ addTable database' table = inl "Table already exists.".
Proof.
  unfold addTable, getTable.
  destruct (tables database !! tbl_name table) eqn:Hfree; [done|].
  intros [= <-]. cbn [tables]. split; [|split].
  - by rewrite lookup_insert_eq.
  - intros name Hne. by rewrite lookup_insert_ne.
  - by rewrite lookup_insert_eq.
Qed.

(** ** Predicate compiler *)

Lemma generateWhere_mapM_total this (where_ : list (string * jsval))
    parentTable :
  Forall (fun kv => has_empty_object (snd kv) = false) where_ ->
  exists fragments,
    mapM (fun '(key, operators) =>
            generateWhereObject this key operators parentTable) where_
    = Ok fragments.
Proof.
  intros Hall.
  pose proof (generateWhere_fragments this where_ parentTable) as Hfr.
  destruct (mapM _ where_) as [fragments|e]; [eauto|].
  destruct Hfr as [_ Hex]. exfalso.
  apply existsb_exists in Hex as ([k v] & Hin & Hempty).
  rewrite Forall_forall in Hall. apply list_elem_of_In in Hin.
  specialize (Hall _ Hin). simpl in *. congruence.
Qed.

(** A filter description without an empty object in it always compiles,
    relationship keys and nesting included. *)
Theorem generateWhere_total this (where_ : list (string * jsval)) parentTable
    includeWhere :
  Forall (fun kv => has_empty_object (snd kv) = false) where_ ->
  exists fragment,
    generateWhere this where_ parentTable includeWhere = Ok fragment.
Proof.
  intros Hall. unfold generateWhere.
  destruct (generateWhere_mapM_total this where_ parentTable Hall)
    as [fragments ->].
  cbn [mbind result_bind]. eauto.
Qed.


(** Only the first entry of an operator object is honoured: the entries
    after it change nothing. *)
Theorem generateWhereObject_first_entry_wins this key operator targetValue
    (rest : list (string * jsval)) parentTable e :
  findReference this key parentTable = Err e ->
  generateWhereObject this key (JObj ((operator, targetValue) :: rest))
    parentTable
  = generateWhereObject this key (JObj [(operator, targetValue)]) parentTable.
Proof.
  intros Href.
  by rewrite !(generateWhereObject_operator _ _ _ _ _ _ _ Href).
Qed.

Lemma switchOperator_unknown selector operator targetValue :
  known_operator operator = false ->
  switchOperator selector operator targetValue = None.
Proof.
  unfold known_operator, switchOperator. cbn [existsb].
  intros H. repeat (apply orb_false_iff in H as [-> H]). done.
Qed.

(** An operator object whose first key is none of the nine operators is
    not refused: the column is compared with the text
    [[object Object]]. *)
Theorem generateWhereObject_unknown_operator this key operator targetValue
    (rest : list (string * jsval)) parentTable e :
  findReference this key parentTable = Err e ->
  known_operator operator = false ->
  generateWhereObject this key (JObj ((operator, targetValue) :: rest))
    parentTable
  = Ok [Ident (parentTable +:+ "." +:+ key); Text " = ";
        Value (JStr "[object Object]")].
Proof.
  intros Href Hunknown.
  rewrite (generateWhereObject_operator _ _ _ _ _ _ _ Href).
  by rewrite switchOperator_unknown.
Qed.

Lemma identifiers_app (f g : SqlFragment) :
  identifiers (f ++ g) = identifiers f ++ identifiers g.
Proof. unfold identifiers. apply omap_app. Qed.

Lemma identifiers_separated (fragments : list SqlFragment) chunk :
  identifiers (separated [Text chunk] fragments)
  = concat (map identifiers fragments).
Proof.
  induction fragments as [|f rest IH]; [done|].
  destruct rest as [|g rest]; [simpl; by rewrite app_nil_r|].
  change (separated [Text chunk] (f :: g :: rest))
    with (f ++ [Text chunk] ++ separated [Text chunk] (g :: rest)).
  rewrite !identifiers_app, IH. reflexivity.
Qed.

Lemma keywordCount_separated_clauses kw sep (fragments : list SqlFragment) :
  Forall (fun f => keywordCount kw f = 0) fragments ->
  keywordCount kw (separated sep fragments)
  = (length fragments - 1) * keywordCount kw sep.
Proof.
  intros Hall. induction Hall as [|f rest Hf _ IH]; [done|].
  destruct rest as [|g rest]; [simpl; lia|].
  change (separated sep (f :: g :: rest))
    with (f ++ sep ++ separated sep (g :: rest)).
  rewrite !keywordCount_app, Hf, IH. simpl. lia.
Qed.

Lemma switchOperator_clause selector operator targetValue fragment :
  switchOperator selector operator targetValue = Some fragment ->
  identifiers fragment = identifiers selector
  /\ keywordCount " AND " fragment = keywordCount " AND " selector.
Proof.
  unfold switchOperator.
  repeat (destruct (String.eqb operator _));
    try destruct targetValue; intros [= <-];
    (split;
     [ rewrite identifiers_app; cbn [identifiers omap]; by rewrite app_nil_r
     | rewrite keywordCount_app;
       match goal with
       | |- _ + ?k = _ =>
           let v := eval vm_compute in k in change k with v
       end; lia ]).
Qed.

(** The clause of a plain column: its identifier and no [AND]. *)
Lemma generateWhereObject_plain this key operators parentTable e fragment :
  findReference this key parentTable = Err e ->
  generateWhereObject this key operators parentTable = Ok fragment ->
  identifiers fragment = [parentTable +:+ "." +:+ key]
  /\ keywordCount " AND " fragment = 0.
Proof.
  intros Href.
  destruct operators as [| | | | |[|[operator targetValue] rest]];
    try (intros [= <-]; split; reflexivity).
  - simpl. by rewrite Href.
  - rewrite (generateWhereObject_operator _ _ _ _ _ _ _ Href).
    destruct (switchOperator _ operator targetValue) as [clause|] eqn:Hswitch;
      intros [= <-]; [|split; reflexivity].
    by apply switchOperator_clause in Hswitch.
Qed.

Lemma generateWhere_plain_clauses this
    (where_ : list (string * jsval)) parentTable includeWhere :
  Forall (fun kv => exists e,
              findReference this (fst kv) parentTable = Err e) where_ ->
  Forall (fun kv => snd kv ≠ JObj []) where_ ->
  exists fragment,
    generateWhere this where_ parentTable includeWhere = Ok fragment
    /\ identifiers fragment
       = map (fun kv => parentTable +:+ "." +:+ fst kv) where_
    /\ keywordCount " AND " fragment = length where_ - 1.
Proof.
  intros Hplain Hfull. unfold generateWhere.
  assert (Hmap : exists fragments,
    mapM (fun '(key, operators) =>
            generateWhereObject this key operators parentTable) where_
    = Ok fragments
    /\ map identifiers fragments
       = map (fun kv => [parentTable +:+ "." +:+ fst kv]) where_
    /\ Forall (fun f => keywordCount " AND " f = 0) fragments).
  { induction Hplain as [|[k v] rest [e He] _ IH]; [by exists []|].
    apply Forall_cons in Hfull as [Hv Hrest]. simpl in He, Hv.
    destruct (IH Hrest) as (fragments & Hfragments & Hids & Hcounts).
    cbn [mapM].
    destruct (generateWhereObject this k v parentTable) as [clause|e']
      eqn:Hclause.
    - destruct (generateWhereObject_plain _ _ _ _ _ _ He Hclause)
        as [Hid Hcount].
      exists (clause :: fragments). rewrite Hfragments.
      cbn [mbind result_bind map fst]. rewrite Hid, Hids.
      split; [done|]. split; [done|]. by constructor.
    - exfalso.
      pose proof (generateWhereObject_count this v k parentTable) as Hc.
      rewrite Hclause in Hc. destruct Hc as [_ Hempty].
      destruct v as [| | | | |[|[operator targetValue] others]];
        try discriminate; [done|].
      rewrite (generateWhereObject_operator _ _ _ _ _ _ _ He) in Hclause.
      discriminate. }
  destruct Hmap as (fragments & -> & Hids & Hcounts).
  cbn [mbind result_bind]. eexists. split; [reflexivity|].
  unfold whereTemplate. rewrite joinByFragment_separated.
  assert (Hlen : length fragments = length where_).
  { rewrite <- (length_map identifiers), Hids. by rewrite length_map. }
  split.
  - rewrite !identifiers_app, identifiers_separated, Hids.
    replace (identifiers (if includeWhere && _ then _ else _)) with
      (@nil string) by (by destruct (includeWhere && _)).
    simpl. clear. induction where_ as [|kv rest IH]; [done|].
    simpl. by rewrite IH.
  - rewrite !keywordCount_app, keywordCount_separated_clauses by done.
    replace (keywordCount " AND " (if includeWhere && _ then _ else _))
      with 0 by (by destruct (includeWhere && _)).
    rewrite Hlen. change (keywordCount " AND " [Text " "]) with 0.
    change (keywordCount " AND " [Text " AND "]) with 1. lia.
Qed.

(** A filter over plain columns, none of them with an empty operator
    object, compiles to one clause per key, [undefined] values included:
    the identifiers of the predicate are the qualified keys in the order
    of the filter, and there is one [AND] less than there are keys. *)
Theorem generateWhere_one_clause_per_key this
    (where_ : list (string * jsval)) parentTable includeWhere :
  Forall (fun kv => exists e,
              findReference this (fst kv) parentTable = Err e) where_ ->
  Forall (fun kv => snd kv ≠ JObj []) where_ ->
  exists fragment,
    generateWhere this where_ parentTable includeWhere = Ok fragment
    /\ identifiers fragment
       = map (fun kv => parentTable +:+ "." +:+ fst kv) where_
    /\ keywordCount " AND " fragment = length where_ - 1.
Proof. apply generateWhere_plain_clauses. Qed.

(** Under a relationship key the nested filter is compiled against the
    referenced table: its clauses are qualified with that table's name,
    and its keys are looked up there. *)
Theorem generateWhereObject_relationship_scoped this key
    (nested : list (string * jsval)) parentTable column r :
  findReference this key parentTable = Ok (column, r) ->
  Forall (fun kv => exists e,
              findReference this (fst kv) (ref_tableName r) = Err e) nested ->
  Forall (fun kv => snd kv ≠ JObj []) nested ->
  exists fragment,
    generateWhereObject this key (JObj nested) parentTable = Ok fragment
    /\ identifiers fragment
       = map (fun kv => ref_tableName r +:+ "." +:+ fst kv) nested
    /\ keywordCount "WHERE" fragment = 0.
Proof.
  intros Href Hplain Hfull.
  rewrite (generateWhereObject_nested _ _ _ _ _ _ Href).
  destruct (generateWhere_plain_clauses this nested (ref_tableName r) false
              Hplain Hfull) as (fragment & Hfragment & Hids & _).
  exists fragment. split; [done|]. split; [done|].
  pose proof (generateWhereObject_count this (JObj nested) key parentTable)
    as Hcount.
  rewrite (generateWhereObject_nested _ _ _ _ _ _ Href), Hfragment in Hcount.
  exact Hcount.
Qed.

(** ** Select compiler and relation resolver *)

(** What [generateSelect] names: the table alone, for [table.*], when no
    column is asked for, with or without an alias prefix; otherwise the
    requested columns, qualified, in the order asked, each followed by its
    alias when a relation key is given. *)
Theorem generateSelect_identifiers (requested : list string) parentTable
    referenceColumnName includeReturning includeComma :
  identifiers
    (generateSelect requested parentTable referenceColumnName includeReturning
       includeComma)
  = match requested with
    | [] => [parentTable]
    | _ =>
        concat
          (map (fun column =>
                  (parentTable +:+ "." +:+ column)
                  :: match referenceColumnName with
                     | Some (String c r) => [aliasOf (String c r) column]
                     | _ => []
                     end) requested)
    end.
Proof.
  unfold generateSelect. rewrite !identifiers_app.
  replace (identifiers (if includeReturning then _ else _)) with (@nil string)
    by (by destruct includeReturning).
  replace (identifiers (if includeComma then _ else _)) with (@nil string)
    by (by destruct includeComma).
  rewrite app_nil_r. cbn [app identifiers omap].
  destruct requested as [|column others]; [done|].
  rewrite joinByFragment_separated, identifiers_separated, map_map.
  change (identifiers [Text " "]) with (@nil string). cbn [app].
  f_equal. apply map_ext. intros c.
  rewrite !identifiers_app.
  by destruct referenceColumnName as [[|a r]|].
Qed.


(** One join per requested key, one selected fragment per key whose value
    is not a boolean. *)
Theorem generateInclude_lengths this (include : list (string * jsval))
    fragments :
  generateInclude this include = Ok fragments ->
  length (joinFragment fragments) = length include
  /\ length (selectFragment fragments)
     = length (filter (fun kv => is_boolean (snd kv) = false) include).
Proof.
  revert fragments.
  induction include as [|[columnName selected] rest IH]; intros fragments.
  { intros [= <-]. done. }
  cbn [generateInclude].
  destruct (findReference this columnName (tableName this))
    as [[column r]|]; cbn [mbind result_bind]; [|done].
  destruct (match selected with JBool _ => Ok [] | _ => _ end)
    as [selects|] eqn:Hselects; cbn [mbind result_bind]; [|done].
  destruct (generateInclude this rest) as [later|]; cbn [mbind result_bind];
    [|done].
  intros [= <-]. cbn [joinFragment selectFragment length].
  destruct (IH later eq_refl) as [Hjoin Hselect].
  rewrite Hjoin, length_app, Hselect, filter_cons. split; [done|].
  cbn [snd].
  assert (Hlen : length selects = if is_boolean selected then 0 else 1).
  { destruct selected; simpl in Hselects;
      try (injection Hselects as <-; reflexivity); discriminate. }
  rewrite Hlen. by destruct (is_boolean selected).
Qed.

(** In a sub-mapping only the keys count: [{ src: false }] includes the
    column like [{ src: true }] does. *)
Theorem generateInclude_values_ignored this columnName
    (props props' : list (string * jsval)) (rest : list (string * jsval)) :
  map fst props = map fst props' ->
  generateInclude this ((columnName, JObj props) :: rest)
  = generateInclude this ((columnName, JObj props') :: rest).
Proof.
  intros Hkeys. cbn [generateInclude].
  destruct (findReference this columnName (tableName this))
    as [[column r]|]; [|done].
  unfold object_keys. cbn [object_entries mbind result_bind].
  by rewrite Hkeys.
Qed.

(** An empty sub-mapping selects every column of the referenced table,
    and without alias: the reshaper will not nest them. *)
Theorem generateInclude_empty_mapping this columnName column r :
  findReference this columnName (tableName this) = Ok (column, r) ->
  exists fragments,
    generateInclude this [(columnName, JObj [])] = Ok fragments
    /\ selectFragment fragments
       = [[Text " "; Ident (ref_tableName r); Text ".*"]].
Proof.
  intros Href. rewrite (generateInclude_listed _ _ _ _ _ Href).
  eexists. split; reflexivity.
Qed.

(** ** Order compiler *)

Lemma identifiers_sortedBy o parentTable (entries : list (string * jsval)) :
  concat (map identifiers (sortedBy o parentTable entries))
  = map (fun kv => parentTable +:+ "." +:+ fst kv)
      (filter (fun kv => order_is o (snd kv) = true) entries).
Proof.
  unfold sortedBy.
  induction (filter _ entries) as [|kv l IH]; [done|].
  simpl. by rewrite IH.
Qed.

(** For a description whose keys are no relationships, the clause names
    the keys sorted ASC first and the keys sorted DESC after them, each
    group in the order of the description; a key with any other value
    (a lower-case direction, say) is left out. *)
Theorem generateOrderBy_flat_identifiers this stack
    (entries : list (string * jsval)) :
  Forall (fun kv => exists e,
              findReference this (fst kv) (tableName this) = Err e) entries ->
  exists fragment,
    generateOrderBy this (S stack) (JObj entries) = Ok fragment
    /\ identifiers fragment
       = map (fun kv => tableName this +:+ "." +:+ fst kv)
           (filter (fun kv => order_is "ASC" (snd kv) = true) entries)
         ++ map (fun kv => tableName this +:+ "." +:+ fst kv)
              (filter (fun kv => order_is "DESC" (snd kv) = true) entries).
Proof.
  intros Hflat. unfold generateOrderBy.
  rewrite (generateOrderByObject_flat _ _ _ _ Hflat).
  cbn [mbind result_bind ascFragment descFragment].
  rewrite <- !identifiers_sortedBy, !joinByFragment_separated.
  destruct (sortedBy "ASC" (tableName this) entries) as [|a asc];
    destruct (sortedBy "DESC" (tableName this) entries) as [|d desc];
    cbn [length Nat.eqb negb andb]; eexists; (split; [reflexivity|]);
    rewrite ?identifiers_app, ?identifiers_separated;
    cbn [identifiers omap app map concat]; by rewrite ?app_nil_r.
Qed.

(** ** Query facade *)

(** A [findMany] without arguments selects every column of the model's
    table, with no join, no predicate, no limit and no order. *)
Theorem findMany_no_arguments this stack :
  exists statement,
    findManyStatement this (S stack) noArgs = Ok statement
    /\ words statement
       = [Text "SELECT"; Ident (tableName this); Text ".*"; Text "FROM";
          Ident (tableName this)].
Proof. eexists. split; reflexivity. Qed.


Lemma keywordCount_cons kw p (fragment : SqlFragment) :
  keywordCount kw (p :: fragment)
  = match p with
    | Text chunk => occurrences kw chunk
    | _ => 0
    end + keywordCount kw fragment.
Proof. reflexivity. Qed.

(** An empty filter puts no [WHERE] on the statement: [delete] then
    deletes, and [update] updates, every row of the table. *)
Theorem empty_filter_hits_every_row this updateArgs :
  u_where updateArgs = [] ->
  (exists statement,
      words statement
      = [Text "DELETE"; Text "FROM"; Ident (tableName this)]
      /\ forall (sql : Executor) σ, delete sql this [] σ = sql statement σ)
  /\ (exists statement,
        updateStatement this updateArgs = Ok statement
        /\ keywordCount "WHERE" statement = 0).
Proof.
  intros Hempty. split.
  - eexists. split; [|intros sql σ; reflexivity]. reflexivity.
  - unfold updateStatement. rewrite Hempty. eexists. split; [reflexivity|].
    unfold generateSelect. destruct (default [] (u_select updateArgs)).
    + reflexivity.
    + rewrite joinByFragment_separated. cbn [app].
      repeat (rewrite keywordCount_cons || rewrite keywordCount_app).
      rewrite keywordCount_separated; [reflexivity|reflexivity|].
      apply Forall_forall. intros f Hf.
      apply list_elem_of_fmap in Hf as (c & -> & _). reflexivity.
Qed.

(** ** Row reshaper *)

Lemma formatRows_fresh (rows : list loc) :
  forall σ : store,
    Forall (fun row => length σ <= row < length (formatRows σ rows).1)
      (formatRows σ rows).2
    /\ NoDup (formatRows σ rows).2.
Proof.
  induction rows as [|row rest IH]; intros σ; [split; constructor|].
  cbn [formatRows].
  destruct (formatRow_frame σ row) as (Hloc & Hpre & Hlen).
  pose proof (formatRows_frame rest (formatRow σ row).1) as [Hpre' _].
  destruct (IH (formatRow σ row).1) as [Hall Hnodup].
  destruct (formatRow σ row) as [σ1 formatted]. cbn [fst snd] in *.
  destruct (formatRows σ1 rest) as [σ2 others]. cbn [fst snd] in *.
  subst formatted. apply prefix_length in Hpre'. split.
  - constructor; [lia|]. eapply Forall_impl; [exact Hall|].
    simpl. intros l Hl. lia.
  - constructor; [|done]. intros Hin.
    rewrite Forall_forall in Hall. specialize (Hall _ Hin). lia.
Qed.

(** [findMany] reshapes without touching what the executor handed over:
    every object of the store is as the executor left it, and the rows
    returned are as many new objects, all different. *)
Theorem findMany_leaves_rows_unchanged (sql : Executor) this stack args σ
    statement rows σ1 :
  findManyStatement this stack args = Ok statement ->
  sql statement σ = Ok (rows, σ1) ->
  exists formatted σ2,
    findMany sql this stack args σ = Ok (formatted, σ2)
    /\ length formatted = length rows
    /\ (forall l o, σ1 !! l = Some o -> σ2 !! l = Some o)
    /\ Forall (fun row => σ1 !! row = None /\ is_Some (σ2 !! row)) formatted
    /\ NoDup formatted.
Proof.
  intros Hst Hsql. rewrite (findMany_rows _ _ _ _ _ _ _ _ Hst Hsql).
  eexists _, _. split; [reflexivity|].
  destruct (formatRows_frame rows σ1) as [Hpre _].
  destruct (formatRows_fresh rows σ1) as [Hfresh Hnodup].
  split; [apply formatRows_length|].
  split; [intros l o Hl; by eapply prefix_lookup_Some|].
  split; [|done]. eapply Forall_impl; [exact Hfresh|].
  simpl. intros l [Hge Hlt]. split.
  - by apply lookup_ge_None_2.
  - by apply lookup_lt_is_Some_2.
Qed.

Lemma obj_has_false (o : obj) key :
  key ∉ map fst o -> obj_has o key = false.
Proof.
  unfold obj_has. induction o as [|[k v] o IH]; [done|].
  intros Hnot. cbn [map fst] in Hnot. apply not_elem_of_cons in Hnot as [Hne Hnot].
  cbn [existsb fst]. rewrite IH by done.
  apply String.eqb_neq in Hne. rewrite String.eqb_sym in Hne.
  by rewrite Hne.
Qed.

(** No alias-marked key is left on the row that the reshaper returns. *)
Theorem formatRow_removes_aliases σ rowSource key :
  alias_marked key = true ->
  obj_has (deref (formatRow σ rowSource).1 (formatRow σ rowSource).2) key
  = false.
Proof.
  intros Hmarked. apply obj_has_false. intros Hin.
  apply list_elem_of_fmap in Hin as ([k v] & -> & Hin).
  pose proof (formatRow_result_unmarked σ rowSource) as Hall.
  rewrite Forall_forall in Hall. specialize (Hall _ Hin).
  simpl in *. congruence.
Qed.










(** ** The alias and its parts *)








(** A relation key that ends in an underscore does not make the trip:
    the alias of [x_] and [c] is read back as [x] and [_c]. *)
Example alias_trailing_underscore :
  alias_parts (aliasOf "x_" "c") = ["x"; "_c"].
Proof. reflexivity. Qed.




(** ** The older predicate compiler *)

(** The older compiler always writes [WHERE], also for the empty filter,
    and a pair it skips still gets its separator: [{ a: undefined, ... }]
    compiles to [WHERE  AND ...]. *)
Theorem Legacy_skipped_pair_keeps_separator key entry
    (rest : list (string * jsval)) parentTable clauses :
  mapM (Legacy.whereEntry parentTable) (entry :: rest) = Ok clauses ->
  Legacy.generateWhere [] parentTable = Ok "WHERE "
  /\ Legacy.generateWhere (entry :: rest) parentTable
     = Ok ("WHERE " +:+ Legacy.join " AND " clauses)
  /\ Legacy.generateWhere ((key, JUndefined) :: entry :: rest) parentTable
     = Ok ("WHERE " +:+ " AND " +:+ Legacy.join " AND " clauses).
Proof.
  intros Hclauses. split; [done|]. unfold Legacy.generateWhere.
  split; [by rewrite Hclauses|].
  change (mapM (Legacy.whereEntry parentTable)
            ((key, JUndefined) :: entry :: rest))
    with (bs ← mapM (Legacy.whereEntry parentTable) (entry :: rest);
          Ok (None :: bs)).
  rewrite Hclauses. cbn [mbind result_bind].
  destruct clauses as [|clause clauses]; [|reflexivity].
  cbn [mapM] in Hclauses.
  destruct (Legacy.whereEntry parentTable entry); [|done].
  cbn [mbind result_bind] in Hclauses.
  by destruct (mapM (Legacy.whereEntry parentTable) rest).
Qed.

(** ** Instances of the further properties *)

Lemma addTable_getTable_witness :
  exists database',
    addTable exampleDatabase postTable = inr database'
    /\ getTable database' "post_" = Ok postTable
    /\ addTable database' postTable = inl "Table already exists.".
Proof.
  destruct (addTable exampleDatabase postTable) as [message|database']
    eqn:Hadd; [vm_compute in Hadd; discriminate|].
  exists database'. split; [reflexivity|].
  destruct (addTable_getTable exampleDatabase postTable database' Hadd)
    as (Hget & _ & Htaken).
  split; [exact Hget | exact Htaken].
Defined.

Lemma generateWhere_total_witness :
  exists fragment,
    generateWhere User
      [("avatar_id", JObj [("src", JObj [("contains", JStr "x")])]);
       ("age", JNum 3)] "user_" true = Ok fragment.
Proof.
  apply (generateWhere_total User). repeat constructor.
Defined.


Lemma generateWhereObject_first_entry_wins_witness :
  generateWhereObject User "age" (JObj [("gt", JNum 3); ("lt", JNum 9)])
    "user_"
  = generateWhereObject User "age" (JObj [("gt", JNum 3)]) "user_".
Proof.
  eapply (generateWhereObject_first_entry_wins User "age" "gt" (JNum 3)
            [("lt", JNum 9)] "user_").
  vm_compute. reflexivity.
Defined.

Lemma generateWhereObject_unknown_operator_witness :
  generateWhereObject User "age" (JObj [("between", JNum 3)]) "user_"
  = Ok [Ident "user_.age"; Text " = "; Value (JStr "[object Object]")].
Proof.
  eapply (generateWhereObject_unknown_operator User "age" "between" (JNum 3)
            [] "user_").
  - vm_compute. reflexivity.
  - reflexivity.
Defined.

Lemma generateWhere_one_clause_per_key_witness :
  exists fragment,
    generateWhere User
      [("name", JUndefined); ("age", JObj [("gt", JNum 3)])] "user_" true
    = Ok fragment
    /\ identifiers fragment = ["user_.name"; "user_.age"]
    /\ keywordCount " AND " fragment = 1.
Proof.
  apply (generateWhere_one_clause_per_key User
           [("name", JUndefined); ("age", JObj [("gt", JNum 3)])] "user_"
           true).
  - repeat constructor; eexists; vm_compute; reflexivity.
  - repeat constructor; discriminate.
Defined.


Lemma generateInclude_lengths_witness :
  exists fragments,
    generateInclude User
      [("avatar_id", JObj [("src", JBool true)])] = Ok fragments
    /\ length (joinFragment fragments) = 1
    /\ length (selectFragment fragments) = 1.
Proof.
  destruct (generateInclude User [("avatar_id", JObj [("src", JBool true)])])
    as [fragments|] eqn:Hinclude; [|vm_compute in Hinclude; discriminate].
  exists fragments. split; [reflexivity|].
  exact (generateInclude_lengths User _ fragments Hinclude).
Defined.

Lemma generateInclude_values_ignored_witness :
  generateInclude User [("avatar_id", JObj [("src", JBool false)])]
  = generateInclude User [("avatar_id", JObj [("src", JBool true)])].
Proof.
  apply (generateInclude_values_ignored User "avatar_id"
           [("src", JBool false)] [("src", JBool true)] []).
  reflexivity.
Defined.

Lemma generateInclude_empty_mapping_witness :
  exists fragments,
    generateInclude User [("avatar_id", JObj [])] = Ok fragments
    /\ selectFragment fragments = [[Text " "; Ident "avatar"; Text ".*"]].
Proof.
  apply (generateInclude_empty_mapping User "avatar_id"
           (referenceColumn "avatar_id" "integer" "avatar" "id")
           {| ref_tableName := "avatar"; ref_columnName := "id" |}).
  vm_compute. reflexivity.
Defined.

Lemma generateOrderBy_flat_identifiers_witness :
  exists fragment,
    generateOrderBy User 1
      (JObj [("name", JStr "ASC"); ("age", JStr "DESC"); ("id", JStr "asc");
             ("username", JStr "ASC")])
    = Ok fragment
    /\ identifiers fragment = ["user_.name"; "user_.username"; "user_.age"].
Proof.
  apply (generateOrderBy_flat_identifiers User 0
           [("name", JStr "ASC"); ("age", JStr "DESC"); ("id", JStr "asc");
            ("username", JStr "ASC")]).
  repeat constructor; eexists; vm_compute; reflexivity.
Defined.

Lemma generateOrderByObject_relationship_witness :
  generateOrderByObject User 2
    (JObj [("avatar_id", JObj [("src", JStr "ASC"); ("alt", JStr "DESC")])])
    "user_"
  = Ok {| ascFragment := [[Ident "avatar.src"]];
          descFragment := [[Ident "avatar.alt"]] |}.
Proof.
  apply (generateOrderByObject_relationship User 0 "avatar_id"
           [("src", JStr "ASC"); ("alt", JStr "DESC")] "user_"
           (referenceColumn "avatar_id" "integer" "avatar" "id")
           {| ref_tableName := "avatar"; ref_columnName := "id" |}).
  - vm_compute. reflexivity.
  - repeat constructor; eexists; vm_compute; reflexivity.
Defined.


Lemma empty_filter_hits_every_row_witness :
  exists statement,
    updateStatement User updateAll = Ok statement
    /\ keywordCount "WHERE" statement = 0.
Proof.
  destruct (empty_filter_hits_every_row User updateAll) as [_ Hupdate].
  - reflexivity.
  - exact Hupdate.
Defined.

Lemma findMany_leaves_rows_unchanged_witness :
  exists formatted σ2,
    findMany (rowsExecutor 2) User 1 (limitOne exampleFind) []
    = Ok (formatted, σ2)
    /\ length formatted = 2
    /\ σ2 !! 0 = Some exampleRow /\ σ2 !! 1 = Some exampleRow
    /\ NoDup formatted.
Proof.
  destruct (findMany_leaves_rows_unchanged (rowsExecutor 2) User 1
              (limitOne exampleFind) [] exampleFindStatement [0; 1]
              [exampleRow; exampleRow])
    as (formatted & σ2 & Hmany & Hlen & Hsame & _ & Hnodup).
  - vm_compute. reflexivity.
  - vm_compute. reflexivity.
  - exists formatted, σ2. split; [exact Hmany|]. split; [exact Hlen|].
    split; [by apply Hsame|]. split; [by apply Hsame | exact Hnodup].
Defined.

Lemma formatRow_removes_aliases_witness :
  obj_has (deref (formatRow [exampleRow] 0).1 (formatRow [exampleRow] 0).2)
    "__avatar_id__src"
  = false.
Proof.
  apply (formatRow_removes_aliases [exampleRow] 0 "__avatar_id__src").
  reflexivity.
Defined.




Lemma Legacy_skipped_pair_keeps_separator_witness :
  Legacy.generateWhere [("a", JUndefined); ("b", JNull)] "user_"
  = Ok "WHERE  AND user_.b IS NULL".
Proof.
  destruct (Legacy_skipped_pair_keeps_separator "a" ("b", JNull) [] "user_"
              [Some "user_.b IS NULL"])
    as (_ & _ & Hskip).
  - reflexivity.
  - exact Hskip.
Defined.

Lemma generateWhereObject_relationship_scoped_witness :
  exists fragment,
    generateWhereObject User "avatar_id"
      (JObj [("src", JObj [("contains", JStr "x")]); ("alt", JNull)]) "user_"
    = Ok fragment
    /\ identifiers fragment = ["avatar.src"; "avatar.alt"]
    /\ keywordCount "WHERE" fragment = 0.
Proof.
  apply (generateWhereObject_relationship_scoped User "avatar_id"
           [("src", JObj [("contains", JStr "x")]); ("alt", JNull)] "user_"
           (referenceColumn "avatar_id" "integer" "avatar" "id")
           {| ref_tableName := "avatar"; ref_columnName := "id" |}).
  - vm_compute. reflexivity.
  - repeat constructor; eexists; vm_compute; reflexivity.
  - repeat constructor; discriminate.
Defined.
